(** * advanced_username_recon: the probing and classification engine

    A shallow embedding of [advanced_username_recon.py].  Python [str] values
    are lists of code points, [bytes] are lists of bytes, a dict used as a
    map is a [gmap].  The verdict of a probe is, as in the source, an
    [Optional[bool]]: [Some true] (exists), [Some false] (not found) and
    [None] (uncertain).  Exceptions are explicit: fallible code returns a
    [result].  The network, the file system, the scheduler and [random] are
    the environment and are passed in as oracles. *)

From Stdlib Require Import ZArith NArith List String Ascii DecimalString.
From Stdlib Require Import QArith Lia Sorted.
From stdpp Require Import base option list gmap.

Open Scope Z_scope.

(** ** Python values *)

(** A [str] is a sequence of Unicode code points. *)
Abbreviation str := (list N).
Abbreviation bytes := (list Byte.byte).

(** String literals of the source, written with Rocq's string notation. *)
Definition lit (s : string) : str :=
  N_of_ascii <$> list_ascii_of_string s.

(** The exceptions the program meets; all are subclasses of [Exception]. *)
Inductive Exn :=
  | ClientError | TimeoutError
  | KeyError | IndexError | ValueError
  | FileNotFoundError | JSONDecodeError | ReError
  | OSError | UnicodeDecodeError | AttributeError | TypeError
  | OtherException.

Inductive result (A : Type) :=
  | Ok (a : A)
  | Raise (e : Exn).
Arguments Ok {A} a.
Arguments Raise {A} e.

#[export] Instance result_ret : MRet result := fun A a => Ok a.
#[export] Instance result_bind : MBind result := fun A B f m =>
  match m with Ok a => f a | Raise e => Raise e end.

(** A compiled pattern, seen through [bool(pattern.search(s))]. *)
Record Pattern := { search : str -> bool }.

(** The library calls whose code is not part of the program. *)
Class PyRuntime := {
  (** [s.lower()] and [s.upper()] *)
  str_lower : str -> str;
  str_upper : str -> str;
  (** [template.format(arg)] *)
  str_format : str -> str -> result str;
  (** [chunk.decode(errors=ignore)] *)
  bytes_decode : bytes -> str;
  (** the decoding done by [resp.text(errors=ignore)] *)
  text_decode : bytes -> str;
  (** [re.compile(pattern, re.IGNORECASE)] *)
  re_compile : str -> result Pattern;
  (** group 1 of the first [re.search] of [fetch_x_bio], for the
      UserDescription block, [None] when it does not match *)
  search_user_description : str -> option str;
  (** group 1 of the second [re.search] of [fetch_x_bio], for the meta
      description tag, [None] when it does not match *)
  search_meta_description : str -> option str;
}.

(** [ch.isspace()], which is also what [\s] matches in a [str] pattern. *)
Definition isspace (c : N) : bool :=
  ((9 <=? c) && (c <=? 13) || (28 <=? c) && (c <=? 32)
   || (c =? 133) || (c =? 160) || (c =? 5760)
   || (8192 <=? c) && (c <=? 8202)
   || (c =? 8232) || (c =? 8233) || (c =? 8239) || (c =? 8287)
   || (c =? 12288))%N.

Fixpoint lstrip (s : str) : str :=
  match s with
  | [] => []
  | c :: s' => if isspace c then lstrip s' else s
  end.
Definition rstrip (s : str) : str := reverse (lstrip (reverse s)).
(** [s.strip()] *)
Definition strip (s : str) : str := rstrip (lstrip s).

Fixpoint startswith (p s : str) : bool :=
  match p, s with
  | [], _ => true
  | _ :: _, [] => false
  | a :: p', b :: s' => (a =? b)%N && startswith p' s'
  end.

(** [p in s] *)
Fixpoint contains (p s : str) : bool :=
  startswith p s ||
  match s with
  | [] => false
  | _ :: s' => contains p s'
  end.

Definition str_eqb (a b : str) : bool := bool_decide (a = b).

(** ** Site profiles and responses *)

(** One entry of sites.json after [load_sites]: the keys of the dict the
    program reads.  [site_url] is [None] when the entry has no url key,
    [site_method] is [None] when it has no method key, [site_skip] is the
    truth value of [cfg.get(skip)]. *)
Record SiteData := {
  site_url : option str;
  site_method : option str;
  site_skip : bool;
  not_found_regex : option str;
  bad_redirect_regex : option str;
  must_contain_regex : option str;
  _not_found_re : option Pattern;
  _bad_redirect_re : option Pattern;
  _must_re : option Pattern;
}.

(** What the program observes of an [aiohttp.ClientResponse]. *)
Record ClientResponse := {
  status : Z;
  (** [str(resp.url)] *)
  resp_url : str;
  (** [str(h.url)] for [h] in [resp.history] *)
  history : list str;
  (** the chunks yielded by [resp.content.iter_chunked(8192)] *)
  content : list bytes;
  (** the exception the body stream raises after those chunks, if any *)
  content_error : option Exn;
}.

(** The tuple [(site_name, exists, url)] every probe returns. *)
Abbreviation ProbeResult := (str * option bool * str)%type.

Definition Exists_ : option bool := Some true.
Definition NotFound : option bool := Some false.
Definition Uncertain : option bool := None.

(** ** Events and environment *)

(** What one probe does to the outside world, in order. *)
Inductive Event :=
  | Request (method url : str)   (** [session.request(method, url, ...)] entered *)
  | Sleep (seconds : Q).         (** [asyncio.sleep(seconds)] *)

(** The network seen by one probe: what entering the request of the given
    attempt, method and url yields.  The headers, the proxy, the timeout and
    the connector are passed to the library unchanged and do not appear:
    every request is taken to end, with a response or with an exception, the
    wait for a connection of the connector being part of the request and of
    its timeout.  The semaphore is taken before the request; [run_scan],
    which creates it, says what its value does to the probes. *)
Abbreviation Network := (nat -> str -> str -> result ClientResponse).

(** What [Path(args.sites)] holds, as [load_sites] meets it. *)
Inductive SitesFile :=
  (** [path.exists()] is false *)
  | NoFile
  (** opening or decoding the file raises [e]: an [OSError], a
      [UnicodeDecodeError] *)
  | Unreadable (e : Exn)
  (** [json.load] raises [JSONDecodeError] *)
  | NotJson
  (** a JSON value that is not an object *)
  | JsonOther
  (** a JSON object with an entry that is not an object, or with a pattern
      value that is true and not text: the loop over the entries raises [e],
      the [AttributeError] of [cfg.get], the [TypeError] of [re.compile], or
      what [re.compile] raised for an entry met before *)
  | JsonIllTyped (e : Exn)
  (** a JSON object whose entries are objects and whose pattern values are
      text, or are false and read as absent *)
  | JsonObject (sites : gmap str SiteData).

(** The arguments of the command line that [run_scan] reads. *)
Record Args := {
  include_skipped : bool;
  variants : bool;
  max_variants : Z;
  (** [--concurrency], an [int]: the value of the semaphore *)
  concurrency : Z;
}.

(** A task of the sweep: the site it was made for and what awaiting it
    gives. *)
Abbreviation Task := (str * (result ProbeResult * list Event))%type.

(** The environment of one run. *)
Record Env := {
  sites_file : SitesFile;
  (** the network of the probe of a site for a username *)
  http : str -> str -> Network;
  (** the network of [fetch_x_bio] *)
  x_http : str -> result ClientResponse;
  (** the order in which [asyncio.as_completed] yields the tasks of the
      sweep of a username *)
  as_completed : str -> list Task -> list Task;
  randint : N;
  shuffle : list str -> list str;
}.

(** What a run does to the outside world: the probes in the order in which
    they are collected, each with its own events, and the enrichment
    fetches. *)
Inductive ScanEvent :=
  | Probe (username site_name : str) (events : list Event)
  | Enrich (username : str) (events : list Event).

Abbreviation ScanResult := (gmap str (list ProbeResult) * gmap str str)%type.

(** How a run ends: it returns or raises after some events, or it waits for
    ever on the semaphore. *)
Inductive Run :=
  | Returns (out : result ScanResult) (events : list ScanEvent)
  | Blocks.

Definition returns (r : result ScanResult * list ScanEvent) : Run :=
  Returns r.1 r.2.

Definition run_result (r : Run) : option (result ScanResult) :=
  match r with
  | Returns out _ => Some out
  | Blocks => None
  end.

Definition run_events (r : Run) : list ScanEvent :=
  match r with
  | Returns _ events => events
  | Blocks => []
  end.

Section Engine.
Context `{PyRuntime}.

(** ** Networking helpers *)

(** The [async for] loop of [read_limited_text]: [chunks] and [read] are the
    loop-carried variables. *)
Fixpoint read_chunks (stream : list bytes) (err : option Exn)
    (limit_chars : Z) (chunks : list str) (read : Z) : result (list str) :=
  match stream with
  | [] =>
      match err with
      | Some e => Raise e
      | None => Ok chunks
      end
  | chunk :: rest =>
      let s := bytes_decode chunk in
      let chunks := chunks ++ [s] in
      let read := read + Z.of_nat (length s) in
      if limit_chars <=? read then Ok chunks
      else read_chunks rest err limit_chars chunks read
  end.

Definition read_limited_text (resp : ClientResponse) (limit_chars : Z)
    : result str :=
  chunks ← read_chunks (content resp) (content_error resp) limit_chars [] 0;
  Ok (concat chunks).

Definition looks_like_bad_redirect (site_data : SiteData)
    (resp : ClientResponse) : bool :=
  match _bad_redirect_re site_data with
  | None => false
  | Some bad_re =>
      let final_url := resp_url resp in
      if search bad_re final_url then true
      else existsb (fun h => search bad_re h) (history resp)
  end.

Definition is_set {A} (o : option A) : bool :=
  match o with Some _ => true | None => false end.

Definition status_in (status : Z) (codes : list Z) : bool :=
  existsb (Z.eqb status) codes.

Definition interpret_response (site_name : str) (site_data : SiteData)
    (url : str) (resp : ClientResponse) : result ProbeResult :=
  let status := status resp in
  if status_in status [404; 410] then Ok (site_name, Some false, url)
  else if looks_like_bad_redirect site_data resp then Ok (site_name, None, url)
  else if status =? 200 then
    let not_found_re := _not_found_re site_data in
    let must_re := _must_re site_data in
    if is_set not_found_re || is_set must_re then
      text ← read_limited_text resp 120000;
      if match not_found_re with
         | Some re => search re text
         | None => false
         end
      then Ok (site_name, Some false, url)
      else
        match must_re with
        | Some re =>
            if search re text then Ok (site_name, Some true, url)
            else Ok (site_name, None, url)
        | None => Ok (site_name, Some true, url)
        end
    else Ok (site_name, None, url)
  else if status_in status [301; 302; 303; 307; 308; 401; 403; 405; 429; 500; 502; 503]
  then Ok (site_name, None, url)
  else Ok (site_name, None, url).

(** ** The probe executor *)

(** [0.25 * (2 ** attempt)], kept in lowest terms. *)
Definition backoff (attempt : nat) : Q :=
  Qred ((1 # 4) * inject_Z (2 ^ Z.of_nat attempt)).

(** The body of the [try] of one attempt. *)
Definition attempt_body (net : Network) (site_name : str)
    (site_data : SiteData) (url method : str) (attempt : nat)
    : result ProbeResult * list Event :=
  match net attempt method url with
  | Raise e => (Raise e, [Request method url])
  | Ok resp =>
      if str_eqb method (lit "HEAD")
         && status_in (status resp) [403; 405; 429; 500; 502; 503]
      then
        match net attempt (lit "GET") url with
        | Raise e => (Raise e, [Request method url; Request (lit "GET") url])
        | Ok resp2 =>
            (interpret_response site_name site_data url resp2,
             [Request method url; Request (lit "GET") url])
        end
      else (interpret_response site_name site_data url resp,
            [Request method url])
  end.

Definition is_transport_error (e : Exn) : bool :=
  match e with
  | ClientError | TimeoutError => true
  | _ => false
  end.

(** [for attempt in range(3)], the list being the attempts still to run. *)
Fixpoint retry_loop (net : Network) (site_name : str) (site_data : SiteData)
    (url method : str) (attempts : list nat) : ProbeResult * list Event :=
  match attempts with
  | [] => ((site_name, None, url), [])
  | attempt :: rest =>
      let '(r, evs) := attempt_body net site_name site_data url method attempt in
      match r with
      | Ok res => (res, evs)
      | Raise e =>
          if is_transport_error e then
            if (attempt =? 2)%nat then ((site_name, None, url), evs)
            else
              let '(res, evs') := retry_loop net site_name site_data url method rest in
              (res, evs ++ Sleep (backoff attempt) :: evs')
          else
            if (attempt =? 2)%nat then ((site_name, None, url), evs)
            else
              let '(res, evs') := retry_loop net site_name site_data url method rest in
              (res, evs ++ Sleep (backoff attempt) :: evs')
      end
  end.

(** [str(site_data[url]).format(username)] *)
Definition build_url (site_data : SiteData) (username : str) : result str :=
  match site_url site_data with
  | None => Raise KeyError
  | Some template => str_format template username
  end.

Definition check_username (net : Network) (site_name : str)
    (site_data : SiteData) (username : str)
    : result ProbeResult * list Event :=
  match build_url site_data username with
  | Raise e => (Raise e, [])
  | Ok url =>
      let method := str_upper (default (lit "HEAD") (site_method site_data)) in
      let '(res, evs) := retry_loop net site_name site_data url method (seq 0 3) in
      (Ok res, evs)
  end.

(** ** The biography of the enrichment step *)

(** Index of the first [>] of [s]. *)
Fixpoint gt_index (s : str) : option nat :=
  match s with
  | [] => None
  | c :: s' => if (c =? 62)%N then Some 0%nat else S <$> gt_index s'
  end.

(** How many characters [[^>]+>] matches at the head of [s], if it does. *)
Definition tag_rest_len (s : str) : option nat :=
  match s with
  | [] => None
  | c :: s' => if (c =? 62)%N then None else (fun i => S (S i)) <$> gt_index s'
  end.

(** [re.sub] of the pattern [<[^>]+>] by the empty string, scanning left to
    right; [skip] counts the characters of the current match still to
    drop. *)
Fixpoint sub_tags (skip : nat) (s : str) : str :=
  match s with
  | [] => []
  | c :: s' =>
      match skip with
      | S k => sub_tags k s'
      | O =>
          if (c =? 60)%N then
            match tag_rest_len s' with
            | Some n => sub_tags n s'
            | None => c :: sub_tags 0 s'
            end
          else c :: sub_tags 0 s'
      end
  end.

Definition strip_tags (s : str) : str := sub_tags 0 s.

(** [re.sub] of the pattern [\s+] by one space; [in_run] tells that the
    previous character was white space, already replaced. *)
Fixpoint sub_spaces (in_run : bool) (s : str) : str :=
  match s with
  | [] => []
  | c :: s' =>
      if isspace c then
        if in_run then sub_spaces true s' else 32%N :: sub_spaces true s'
      else c :: sub_spaces false s'
  end.

Definition collapse_spaces (s : str) : str := sub_spaces false s.

(** [bio[:80]] followed by three dots if [len(bio) > 80], else [bio] *)
Definition clip_bio (bio : str) : str :=
  if (80 <? length bio)%nat then take 80 bio ++ lit "..." else bio.

(** The bio made from group 1 of the UserDescription match. *)
Definition bio_of_description (group1 : str) : str :=
  let bio := strip (strip_tags group1) in
  let bio := collapse_spaces bio in
  clip_bio bio.

(** The bio made from group 1 of the meta description match. *)
Definition bio_of_meta (group1 : str) : str :=
  let bio := collapse_spaces (strip group1) in
  clip_bio bio.

(** [await resp.text(errors=ignore)] *)
Definition resp_text (resp : ClientResponse) : result str :=
  match content_error resp with
  | Some e => Raise e
  | None => Ok (text_decode (concat (content resp)))
  end.

Definition x_url (username : str) : str := lit "https://x.com/" ++ username.

(** The body of the [try] of [fetch_x_bio], once the request is entered. *)
Definition bio_of_response (resp : ClientResponse) : result (option str) :=
  if negb (status resp =? 200) then Ok None
  else
    text ← resp_text resp;
    match search_user_description text with
    | Some group1 => Ok (Some (bio_of_description group1))
    | None =>
        match search_meta_description text with
        | Some group1 => Ok (Some (bio_of_meta group1))
        | None => Ok None
        end
    end.

Definition fetch_x_bio (x_net : str -> result ClientResponse)
    (username : str) : option str * list Event :=
  let url := x_url username in
  match x_net url ≫= bio_of_response with
  | Ok bio => (bio, [Request (lit "GET") url])
  | Raise _ => (None, [Request (lit "GET") url])
  end.

(** ** Sites loading *)

(** [re.compile(p, re.IGNORECASE) if p else None] *)
Definition compile_opt (p : option str) : result (option Pattern) :=
  match p with
  | Some ((_ :: _) as p) => re ← re_compile p; Ok (Some re)
  | _ => Ok None
  end.

Definition compile_cfg (cfg : SiteData) : result SiteData :=
  nfr ← compile_opt (not_found_regex cfg);
  brr ← compile_opt (bad_redirect_regex cfg);
  must ← compile_opt (must_contain_regex cfg);
  Ok {| site_url := site_url cfg; site_method := site_method cfg;
        site_skip := site_skip cfg;
        not_found_regex := not_found_regex cfg;
        bad_redirect_regex := bad_redirect_regex cfg;
        must_contain_regex := must_contain_regex cfg;
        _not_found_re := nfr; _bad_redirect_re := brr; _must_re := must |}.

Fixpoint compile_items (items : list (str * SiteData))
    : result (list (str * SiteData)) :=
  match items with
  | [] => Ok []
  | (name, cfg) :: rest =>
      cfg' ← compile_cfg cfg;
      rest' ← compile_items rest;
      Ok ((name, cfg') :: rest')
  end.

Definition load_sites (file : SitesFile) : result (gmap str SiteData) :=
  match file with
  | NoFile => Raise FileNotFoundError
  | Unreadable e => Raise e
  | NotJson => Raise JSONDecodeError
  | JsonOther => Raise ValueError
  | JsonIllTyped e => Raise e
  | JsonObject sites =>
      items ← compile_items (map_to_list sites);
      Ok (list_to_map items)
  end.

(** The empty dict of [sites.get(site, {})]. *)
Definition empty_site : SiteData :=
  {| site_url := None; site_method := None; site_skip := false;
     not_found_regex := None; bad_redirect_regex := None;
     must_contain_regex := None;
     _not_found_re := None; _bad_redirect_re := None; _must_re := None |}.

Definition is_x_site (site_name : str) (site_data : SiteData) : bool :=
  let s := str_lower (strip site_name) in
  if str_eqb s (lit "twitter") || str_eqb s (lit "twitter/x") || str_eqb s (lit "x")
  then true
  else
    let url := str_lower (default [] (site_url site_data)) in
    contains (lit "x.com/{}") url || contains (lit "twitter.com/{}") url.

(** ** Username variations *)

(** [str(n)] for a non-negative [int]. *)
Definition str_of_N (n : N) : str :=
  lit (NilZero.string_of_uint (N.to_uint n)).

(** [l[:stop]] *)
Definition slice_to {A} (l : list A) (stop : Z) : list A :=
  if stop <? 0 then take (Z.to_nat (Z.of_nat (length l) + stop)) l
  else take (Z.to_nat stop) l.

Definition number_suffixes (randint : N) : list str :=
  [str_of_N randint; lit "123"; lit "69"; lit "88"; lit "tv"; lit "yt";
   lit "x"; lit "official"].
Definition year_suffixes : list str :=
  (fun y => str_of_N (N.of_nat y)) <$> seq 1990 37.
Definition simple_suffixes : list str :=
  [lit "_"; lit "__"; lit "."; lit "pro"; lit "real"; lit "hq"; lit "fan";
   lit "live"].
Definition prefixes : list str :=
  [lit "the"; lit "real"; lit "mr"; lit "ms"; lit "official"].

(** The loop over the suffixes, with its [break]. *)
Fixpoint add_suffixes (base : str) (max_variants : Z) (suffixes : list str)
    (variations : gset str) : gset str :=
  match suffixes with
  | [] => variations
  | suffix :: rest =>
      if Z.of_nat (size variations) >=? max_variants then variations
      else
        add_suffixes base max_variants rest
          (variations ∪ {[ base ++ suffix ]}
                      ∪ {[ base ++ lit "_" ++ suffix ]}
                      ∪ {[ base ++ lit "." ++ suffix ]})
  end.

Definition add_splits (base : str) (variations : gset str) : gset str :=
  if (4 <? length base)%nat then
    let mid := (length base / 2)%nat in
    variations ∪ {[ take mid base ++ lit "_" ++ drop mid base ]}
               ∪ {[ take mid base ++ lit "." ++ drop mid base ]}
  else variations.

Fixpoint add_prefixes (base : str) (pre : list str) (variations : gset str)
    : gset str :=
  match pre with
  | [] => variations
  | prefix :: rest =>
      add_prefixes base rest
        (variations ∪ {[ prefix ++ base ]} ∪ {[ prefix ++ lit "_" ++ base ]})
  end.

(** [randint] is the value of [random.randint(0, 99)]; [shuffle] is the
    order in which [list(variations)] comes out of [random.shuffle]. *)
Definition generate_username_variations (randint : N)
    (shuffle : list str -> list str) (base : str) (max_variants : Z)
    : list str :=
  let base := str_lower (strip base) in
  let variations : gset str := {[ base ]} in
  let variations :=
    add_suffixes base max_variants
      (number_suffixes randint ++ year_suffixes ++ simple_suffixes) variations in
  let variations := add_splits base variations in
  let variations := add_prefixes base prefixes variations in
  let var_list := shuffle (elements variations) in
  slice_to var_list max_variants.

(** ** Main scanning *)

(** The loop [for fut in asyncio.as_completed(tasks)]. *)
Fixpoint collect (sites : gmap str SiteData) (uname : str) (futs : list Task)
    (results : list ProbeResult) (x_exists : bool)
    : result (list ProbeResult * bool) * list ScanEvent :=
  match futs with
  | [] => (Ok (results, x_exists), [])
  | (site_name, (r, evs)) :: rest =>
      match r with
      | Raise e => (Raise e, [Probe uname site_name evs])
      | Ok (site, exists_, url) =>
          let results := results ++ [(site, exists_, url)] in
          let x_exists :=
            if bool_decide (exists_ = Some true)
               && is_x_site site (default empty_site (sites !! site))
            then true else x_exists in
          let '(out, tr) := collect sites uname rest results x_exists in
          (out, Probe uname site_name evs :: tr)
      end
  end.

(** The tasks of the sweep of [uname], one per site. *)
Definition make_tasks (env : Env) (sites : gmap str SiteData) (uname : str)
    : list Task :=
  (fun '(site_name, site_data) =>
     (site_name,
      check_username (http env site_name uname) site_name site_data uname))
    <$> map_to_list sites.

(** The enrichment of [uname] after its sweep. *)
Definition enrich (env : Env) (uname : str) (x_exists : bool)
    (bios_cache : gmap str str) : gmap str str * list ScanEvent :=
  if x_exists then
    let '(bio, evs) := fetch_x_bio (x_http env) uname in
    (match bio with
     | Some ((_ :: _) as bio) => <[uname := bio]> bios_cache
     | _ => bios_cache
     end, [Enrich uname evs])
  else (bios_cache, []).

(** The body of the loop [for uname in usernames_to_check]: the results of
    [uname], the bios and the events. *)
Definition sweep (env : Env) (sites : gmap str SiteData) (uname : str)
    (bios_cache : gmap str str)
    : result (list ProbeResult * gmap str str) * list ScanEvent :=
  let tasks := make_tasks env sites uname in
  let '(out, tr) := collect sites uname (as_completed env uname tasks) [] false in
  match out with
  | Raise e => (Raise e, tr)
  | Ok (results, x_exists) =>
      let '(bios_cache, tr_bio) := enrich env uname x_exists bios_cache in
      (Ok (results, bios_cache), tr ++ tr_bio)
  end.

(** The loop [for uname in usernames_to_check]. *)
Fixpoint scan_usernames (env : Env) (sites : gmap str SiteData)
    (unames : list str) (all_results : gmap str (list ProbeResult))
    (bios_cache : gmap str str) : result ScanResult * list ScanEvent :=
  match unames with
  | [] => (Ok (all_results, bios_cache), [])
  | uname :: rest =>
      let '(out, tr) := sweep env sites uname bios_cache in
      match out with
      | Raise e => (Raise e, tr)
      | Ok (results, bios_cache) =>
          let all_results := <[uname := results]> all_results in
          let '(out', tr') :=
            scan_usernames env sites rest all_results bios_cache in
          (out', tr ++ tr')
      end
  end.

(** The sites of the run: the skipped ones are left out unless asked for. *)
Definition included_sites (args : Args) (sites_all : gmap str SiteData)
    : gmap str SiteData :=
  filter (fun kv => site_skip kv.2 && negb (include_skipped args) = false)
         sites_all.

Definition usernames_to_check (env : Env) (args : Args) (base : str)
    : list str :=
  if variants args then
    generate_username_variations (randint env) (shuffle env) base
      (max_variants args)
  else [base].

(** The first of the tasks that ended by raising. *)
Fixpoint first_raised (tasks : list Task) : option (str * Exn * list Event) :=
  match tasks with
  | [] => None
  | (site_name, (Raise e, evs)) :: _ => Some (site_name, e, evs)
  | (_, (Ok _, _)) :: rest => first_raised rest
  end.

(** The loop [for uname in usernames_to_check] under a semaphore of value
    0.  No probe gets past [async with sem], and nothing ever releases the
    semaphore: a task of the sweep ends only by raising before it, when its
    url cannot be built.  The first such task that [asyncio.as_completed]
    yields aborts the run; a sweep with tasks of which none ends waits for
    ever; a sweep without tasks, of a catalog without sites, goes on to the
    next username. *)
Fixpoint scan_blocked (env : Env) (sites : gmap str SiteData)
    (unames : list str) (all_results : gmap str (list ProbeResult)) : Run :=
  match unames with
  | [] => Returns (Ok (all_results, ∅)) []
  | uname :: rest =>
      let tasks := as_completed env uname (make_tasks env sites uname) in
      match tasks with
      | [] => scan_blocked env sites rest (<[uname := []]> all_results)
      | _ :: _ =>
          match first_raised tasks with
          | Some (site_name, e, evs) =>
              Returns (Raise e) [Probe uname site_name evs]
          | None => Blocks
          end
      end
  end.

(** The run up to the end of the loop over the usernames: what it returns
    is [all_results] and [bios_cache], which the rest of the function prints
    and saves.  [asyncio.Semaphore(value)] raises [ValueError] for a
    negative value, after the catalog is loaded and the handles are made and
    before the first probe.  With a positive value every probe is let
    through in its turn, and the order in which the probes end is the
    [as_completed] of the environment. *)
Definition run_scan (env : Env) (args : Args) (username : str) : Run :=
  match load_sites (sites_file env) with
  | Raise e => Returns (Raise e) []
  | Ok sites_all =>
      let sites := included_sites args sites_all in
      let base := str_lower (strip username) in
      match base with
      | [] => Returns (Raise ValueError) []
      | _ :: _ =>
          let unames := usernames_to_check env args base in
          if concurrency args <? 0 then Returns (Raise ValueError) []
          else if concurrency args =? 0 then scan_blocked env sites unames ∅
          else returns (scan_usernames env sites unames ∅ ∅)
      end
  end.

End Engine.

(** ** Vocabulary of the statements *)

(** No position of [s] matches the tag pattern. *)
Definition no_tag (s : str) : Prop :=
  forall pre rest, s = pre ++ 60%N :: rest -> tag_rest_len rest = None.

Definition is_probe (ev : ScanEvent) : bool :=
  match ev with
  | Probe _ _ _ => true
  | Enrich _ _ => false
  end.

(** The username an event of the run is about. *)
Definition event_username (ev : ScanEvent) : str :=
  match ev with
  | Probe username _ _ => username
  | Enrich username _ => username
  end.

Definition probe_site (r : ProbeResult) : str := r.1.1.
Definition probe_verdict (r : ProbeResult) : option bool := r.1.2.


(** The test of the sweep for the enrichment. *)
Definition high_signal `{PyRuntime} (sites : gmap str SiteData)
    (r : ProbeResult) : bool :=
  bool_decide (probe_verdict r = Some true)
  && is_x_site (probe_site r) (default empty_site (sites !! probe_site r)).


(** ** A runtime for plain ASCII text

    An instance of the library calls that agrees with Python on ASCII text:
    templates whose braces are [{}], [{{] and [}}], patterns without
    metacharacters, bodies of ASCII bytes.  The examples run on it. *)
Module Ascii_runtime.

Definition lower_char (c : N) : N :=
  if ((65 <=? c) && (c <=? 90))%N then (c + 32)%N else c.
Definition upper_char (c : N) : N :=
  if ((97 <=? c) && (c <=? 122))%N then (c - 32)%N else c.
Definition lower (s : str) : str := lower_char <$> s.
Definition upper (s : str) : str := upper_char <$> s.

(** [template.format(arg)]; [used] tells that the one positional argument
    is already consumed by an earlier [{}]. *)
Fixpoint format_from (template arg : str) (used : bool) : result str :=
  match template with
  | [] => Ok []
  | c :: rest =>
      if (c =? 123)%N then
        match rest with
        | d :: rest' =>
            if (d =? 125)%N then
              if used then Raise IndexError
              else r ← format_from rest' arg true; Ok (arg ++ r)
            else if (d =? 123)%N then
              r ← format_from rest' arg used; Ok (123%N :: r)
            else Raise ValueError
        | [] => Raise ValueError
        end
      else if (c =? 125)%N then
        match rest with
        | d :: rest' =>
            if (d =? 125)%N then
              r ← format_from rest' arg used; Ok (125%N :: r)
            else Raise ValueError
        | [] => Raise ValueError
        end
      else r ← format_from rest arg used; Ok (c :: r)
  end.
Definition format (template arg : str) : result str :=
  format_from template arg false.

(** Bytes below 128 are their code points; the others are ignored. *)
Definition decode (b : bytes) : str :=
  omap (fun x => let n := Byte.to_N x in
                 if (n <? 128)%N then Some n else None) b.

(** A pattern without metacharacters, searched ignoring case. *)
Definition compile (p : str) : result Pattern :=
  Ok {| search := fun s => contains (lower p) (lower s) |}.

(** The rest of [s] after the first occurrence of [p], ignoring case. *)
Fixpoint after (p s : str) : option str :=
  if startswith (lower p) (lower s) then Some (drop (length p) s)
  else match s with
       | [] => None
       | _ :: s' => after p s'
       end.

(** The part of [s] before the first occurrence of [p], ignoring case. *)
Fixpoint before (p s : str) : option str :=
  if startswith (lower p) (lower s) then Some []
  else match s with
       | [] => None
       | c :: s' => cons c <$> before p s'
       end.

Definition quote : str := [34%N].

Definition user_description (text : str) : option str :=
  r ← after (lit "data-testid=" ++ quote ++ lit "UserDescription" ++ quote) text;
  r ← after (lit ">") r;
  before (lit "</div>") r.

(** White space, then [p], at the head of [s]: the rest after [p]. *)
Definition spaces_then (p s : str) : option str :=
  match s with
  | c :: s' =>
      if isspace c then
        let s'' := lstrip s' in
        if startswith (lower p) (lower s'') then Some (drop (length p) s'')
        else None
      else None
  | [] => None
  end.

(** The lazy group closed by the next double quote at the head of [s];
    the group holds no newline. *)
Fixpoint up_to_quote (s : str) : option str :=
  match s with
  | [] => None
  | c :: s' =>
      if (c =? 34)%N then Some []
      else if (c =? 10)%N then None
      else cons c <$> up_to_quote s'
  end.

Definition meta_description_at (s : str) : option str :=
  if startswith (lit "<meta") (lower s) then
    r ← spaces_then (lit "name=" ++ quote ++ lit "description" ++ quote) (drop 5 s);
    r ← spaces_then (lit "content=" ++ quote) r;
    up_to_quote r
  else None.

Fixpoint meta_description (text : str) : option str :=
  match meta_description_at text with
  | Some g => Some g
  | None =>
      match text with
      | [] => None
      | _ :: text' => meta_description text'
      end
  end.

#[export] Instance runtime : PyRuntime := {|
  str_lower := lower;
  str_upper := upper;
  str_format := format;
  bytes_decode := decode;
  text_decode := decode;
  re_compile := compile;
  search_user_description := user_description;
  search_meta_description := meta_description;
|}.

End Ascii_runtime.

(** ** Example data *)
Module Examples.
Import Ascii_runtime.

Definition login_re : Pattern := {| search := contains (lit "login") |}.
Definition gone_re : Pattern := {| search := contains (lit "not found") |}.
Definition profile_re : Pattern := {| search := contains (lit "profile") |}.

Definition site (template : option str) (method : option str)
    (nf br must : option Pattern) : SiteData :=
  {| site_url := template; site_method := method; site_skip := false;
     not_found_regex := None; bad_redirect_regex := None;
     must_contain_regex := None;
     _not_found_re := nf; _bad_redirect_re := br; _must_re := must |}.

Definition ex_com : SiteData :=
  site (Some (lit "https://ex.com/{}")) (Some (lit "HEAD")) None None None.

(** A profile with the three patterns. *)
Definition strict_site : SiteData :=
  site (Some (lit "https://ex.com/{}")) None
       (Some gone_re) (Some login_re) (Some profile_re).

Definition ascii_bytes (s : string) : bytes :=
  byte_of_ascii <$> list_ascii_of_string s.

Definition response (st : Z) (u : str) (hist : list str) (body : list bytes)
    : ClientResponse :=
  {| status := st; resp_url := u; history := hist; content := body;
     content_error := None |}.

(** A chunk of 8192 bytes, all the letter a. *)
Definition full_chunk : bytes := replicate (Z.to_nat 8192) Byte.x61.

(** A body of fifteen full chunks: 122880 bytes. *)
Definition long_body : list bytes := replicate 15 full_chunk.

Definition alice_url : str := lit "https://ex.com/alice".

(** A 404 answer that was redirected to the login page. *)
Definition gone_to_login : ClientResponse :=
  response 404 (lit "https://ex.com/login?next=bob") [] [].

(** A 200 answer that was redirected through the login page. *)
Definition via_login : ClientResponse :=
  response 200 (lit "https://ex.com/bob") [lit "https://ex.com/login?next=bob"]
           [ascii_bytes "the profile of bob"].

(** A 200 answer with a profile page. *)
Definition profile_page : ClientResponse :=
  response 200 alice_url [] [ascii_bytes "the profile "; ascii_bytes "of alice"].

Definition long_response : ClientResponse :=
  response 200 alice_url [] long_body.

(** A network where every request fails. *)
Definition net_down : Network := fun _ _ _ => Raise ClientError.

(** A network that answers every request with the given status. *)
Definition net_status (st : Z) : Network :=
  fun _ _ u => Ok (response st u [] []).

(** A network that answers HEAD with 429 and GET with a profile page. *)
Definition net_head_throttled : Network :=
  fun _ m u =>
    if str_eqb m (lit "HEAD") then Ok (response 429 u [] [])
    else Ok profile_page.

Definition post_site : SiteData :=
  site (Some (lit "https://ex.com/{}")) (Some (lit "post")) None None None.

Definition must_site : SiteData :=
  site (Some (lit "https://ex.com/{}")) None None None (Some profile_re).

(** An entry of sites.json, before [load_sites]. *)
Definition entry (template : option str) (method : option str) (skip : bool)
    (nf br must : option str) : SiteData :=
  {| site_url := template; site_method := method; site_skip := skip;
     not_found_regex := nf; bad_redirect_regex := br;
     must_contain_regex := must;
     _not_found_re := None; _bad_redirect_re := None; _must_re := None |}.

Definition quoted (s : string) : bytes :=
  Byte.x22 :: ascii_bytes s ++ [Byte.x22].

(** A page of x.com with a meta description. *)
Definition x_page : list bytes :=
  [ascii_bytes "<html><meta name=" ++ quoted "description"
   ++ ascii_bytes " content=" ++ quoted "Alice   in  Wonderland"
   ++ ascii_bytes "></html>"].

(** A page whose meta description holds markup. *)
Definition markup_page : list bytes :=
  [ascii_bytes "<meta name=" ++ quoted "description"
   ++ ascii_bytes " content=" ++ quoted "<b>hi</b>" ++ ascii_bytes ">"].

(** Two profiles: a plain one and the one of x.com, and a skipped one. *)
Definition catalog : gmap str SiteData :=
  {[ lit "ex" := entry (Some (lit "https://ex.com/{}")) None false
                   None (Some (lit "login")) None;
     lit "x" := entry (Some (lit "https://x.com/{}")) (Some (lit "GET")) false
                  None None (Some (lit "profile"));
     lit "old" := entry (Some (lit "https://old.example/{}")) None true
                    None None None ]}.

(** A catalog with an entry that has no url. *)
Definition catalog_no_url : gmap str SiteData :=
  {[ lit "ex" := entry (Some (lit "https://ex.com/{}")) None false
                   None None None;
     lit "zz" := entry None None false None None None ]}.

Definition demo_http (site_name uname : str) : Network :=
  if str_eqb site_name (lit "x") then fun _ _ _ => Ok profile_page
  else net_status 404.

Definition demo_env (file : SitesFile) : Env :=
  {| sites_file := file;
     http := demo_http;
     x_http := fun u => Ok (response 200 u [] x_page);
     as_completed := fun _ tasks => tasks;
     randint := 7%N;
     shuffle := fun l => l |}.

(** The defaults of the command line. *)
Definition plain_args : Args :=
  {| include_skipped := false; variants := false; max_variants := 12;
     concurrency := 25 |}.


(** [--concurrency 0] and [--concurrency -1] *)
Definition blocked_args : Args :=
  {| include_skipped := false; variants := false; max_variants := 12;
     concurrency := 0 |}.

Definition refused_args : Args :=
  {| include_skipped := false; variants := false; max_variants := 12;
     concurrency := -1 |}.

End Examples.

(** ** More vocabulary *)

(** The response [resp] with another body stream. *)
Definition with_body (resp : ClientResponse) (body : list bytes)
    (err : option Exn) : ClientResponse :=
  {| status := status resp; resp_url := resp_url resp;
     history := history resp; content := body; content_error := err |}.

(** The requests of a list of events, as pairs of a method and a url. *)
Definition event_requests (evs : list Event) : list (str * str) :=
  omap (fun ev => match ev with
                  | Request method url => Some (method, url)
                  | Sleep _ => None
                  end) evs.

(** The sleeps of a list of events, in seconds. *)
Definition event_sleeps (evs : list Event) : list Q :=
  omap (fun ev => match ev with
                  | Request _ _ => None
                  | Sleep seconds => Some seconds
                  end) evs.

(** The whole body of a response, decoded chunk by chunk. *)
Definition decoded_body `{PyRuntime} (resp : ClientResponse) : str :=
  concat (bytes_decode <$> content resp).

(** The suffixes of [generate_username_variations], in the order of its
    loop. *)
Definition all_suffixes (randint : N) : list str :=
  number_suffixes randint ++ year_suffixes ++ simple_suffixes.

(** The forms a variation of [b] can take: [b] itself, [b] with a suffix
    among [suffixes], [b] cut in the middle, [b] with a prefix. *)
Definition variant_shape (suffixes : list str) (b h : str) : Prop :=
  h = b
  \/ (exists suffix sep,
        suffix ∈ suffixes /\ sep ∈ [[]; lit "_"; lit "."]
        /\ h = b ++ sep ++ suffix)
  \/ ((4 < length b)%nat
      /\ exists sep,
           sep ∈ [lit "_"; lit "."]
           /\ h = take (length b / 2) b ++ sep ++ drop (length b / 2) b)
  \/ (exists prefix sep,
        prefix ∈ prefixes /\ sep ∈ [[]; lit "_"]
        /\ h = prefix ++ sep ++ b).

(** The compiled pattern that [load_sites] stores for a pattern text: none
    for an absent or empty text, else the pattern compiled from it. *)
Definition compiled_from `{PyRuntime} (text : option str)
    (re : option Pattern) : Prop :=
  match text with
  | None => re = None
  | Some p =>
      if decide (p = []) then re = None
      else exists r, re_compile p = Ok r /\ re = Some r
  end.

(** The pattern texts of an entry. *)
Definition pattern_texts (cfg : SiteData) : list (option str) :=
  [not_found_regex cfg; bad_redirect_regex cfg; must_contain_regex cfg].

(** What the loop over the completed tasks of the sweep of [uname]
    gives. *)
Definition sweep_collected `{PyRuntime} (env : Env)
    (sites : gmap str SiteData) (uname : str)
    : result (list ProbeResult * bool) * list ScanEvent :=
  collect sites uname (as_completed env uname (make_tasks env sites uname))
          [] false.

(** An event of a run over the sites [sites] and the usernames [handles]:
    the probe of one of the sites for one of the usernames, with the events
    of that probe, or the one request of an enrichment. *)
Definition scan_event_ok `{PyRuntime} (env : Env)
    (sites : gmap str SiteData) (handles : list str) (ev : ScanEvent)
    : Prop :=
  match ev with
  | Probe u site_name evs =>
      u ∈ handles
      /\ exists site_data,
           sites !! site_name = Some site_data
           /\ evs = (check_username (http env site_name u) site_name
                       site_data u).2
  | Enrich u evs =>
      u ∈ handles /\ evs = [Request (lit "GET") (x_url u)]
  end.

(** ** The tables *)

(** [a < b] on [str]: the comparison of Python, code point by code
    point. *)
Fixpoint str_ltb (a b : str) : bool :=
  match a, b with
  | _, [] => false
  | [], _ :: _ => true
  | x :: a', y :: b' => (x <? y)%N || ((x =? y)%N && str_ltb a' b')
  end.

(** [sorted(l, key=key)] for keys that are [str]: the one stable
    arrangement of [l] in ascending order of the keys, built by insertion
    from the right. *)
Fixpoint insert_sorted {A} (key : A -> str) (x : A) (l : list A) : list A :=
  match l with
  | [] => [x]
  | y :: l' =>
      if str_ltb (key y) (key x) then y :: insert_sorted key x l'
      else x :: l
  end.

Definition sorted {A} (key : A -> str) (l : list A) : list A :=
  foldr (insert_sorted key) [] l.

(** What the program puts in a [rich] table: the title, the rows of the two
    columns Site and URL, and the caption.  The styles are constants and
    are left out. *)
Record Table := {
  title : str;
  rows : list (str * str);
  caption : str;
}.

Section Tables.
Context `{PyRuntime}.

(** The pairs [(site, url)] of the results whose verdict is [verdict]. *)
Definition select (verdict : option bool) (results : list ProbeResult)
    : list (str * str) :=
  omap (fun r : ProbeResult =>
          let '(site, exists_, url) := r in
          if bool_decide (exists_ = verdict) then Some (site, url) else None)
       results.

Definition build_hits_table (username : str) (results : list ProbeResult)
    : Table :=
  let hits := select (Some true) results in
  {| title := lit "Found accounts for @" ++ username;
     rows := sorted (fun x => str_lower x.1) hits;
     caption := lit "[bold]" ++ str_of_N (N.of_nat (length hits))
                ++ lit "[/bold] sites matched" |}.

Definition build_uncertain_table (username : str)
    (results : list ProbeResult) : Table :=
  let uncertain := select None results in
  {| title := lit "Uncertain (blocked/redirect/login) for @" ++ username;
     rows := sorted (fun x => str_lower x.1) uncertain;
     caption := lit "[bold]" ++ str_of_N (N.of_nat (length uncertain))
                ++ lit "[/bold] uncertain" |}.

End Tables.

(** ** More example data *)
Module More_examples.
Import Ascii_runtime Examples.

(** A long body whose stream breaks after its fifteen chunks. *)
Definition long_broken : ClientResponse :=
  {| status := 200; resp_url := alice_url; history := [];
     content := long_body; content_error := Some ClientError |}.

(** A network whose first attempt times out and that answers 404 after. *)
Definition net_flaky : Network :=
  fun attempt _ u =>
    match attempt with
    | O => Raise TimeoutError
    | S _ => Ok (response 404 u [] [])
    end.

(** The catalogs of the examples, loaded. *)
Definition loaded (sites : gmap str SiteData) : gmap str SiteData :=
  match load_sites (JsonObject sites) with
  | Ok m => m
  | Raise _ => ∅
  end.

Definition demo_sites : gmap str SiteData :=
  included_sites plain_args (loaded catalog).

(** What the run of the examples returns. *)
Definition demo_run : Run :=
  run_scan (demo_env (JsonObject catalog)) plain_args (lit "Alice ").

Definition demo_results : gmap str (list ProbeResult) :=
  match run_result demo_run with
  | Some (Ok (all_results, _)) => all_results
  | _ => ∅
  end.

Definition demo_bios : gmap str str :=
  match run_result demo_run with
  | Some (Ok (_, bios)) => bios
  | _ => ∅
  end.

(** Results of a sweep, in the order of their completion. *)
Definition some_results : list ProbeResult :=
  [(lit "Zeta", Some true, lit "https://zeta.example/alice");
   (lit "beta", None, lit "https://beta.example/alice");
   (lit "Alpha", Some true, lit "https://alpha.example/alice");
   (lit "gone", Some false, lit "https://gone.example/alice")].

End More_examples.

(** * Properties *)

(** ** The response classifier *)

Section Classifier.
Context `{PyRuntime}.

Lemma status_in_spec status codes :
  status_in status codes = true <-> In status codes.
Proof.
  unfold status_in. rewrite existsb_exists. split.
  - intros (c & Hc & Heq). apply Z.eqb_eq in Heq. by subst.
  - intros Hin. exists status. split; [done | apply Z.eqb_refl].
Qed.

Lemma looks_like_bad_redirect_spec site_data resp :
  looks_like_bad_redirect site_data resp = true <->
  exists bad_re u, _bad_redirect_re site_data = Some bad_re
    /\ (u = resp_url resp \/ In u (history resp))
    /\ search bad_re u = true.
Proof.
  unfold looks_like_bad_redirect.
  destruct (_bad_redirect_re site_data) as [bad_re|]; last first.
  { split; [done | by intros (? & ? & ? & _)]. }
  destruct (search bad_re (resp_url resp)) eqn:Hfinal.
  - split; [|done]. intros _. exists bad_re, (resp_url resp). auto.
  - rewrite existsb_exists. split.
    + intros (u & Hin & Hu). exists bad_re, u. auto.
    + intros (re & u & [= <-] & [-> | Hin] & Hu); [congruence|].
      by exists u.
Qed.

(** Every verdict of the classifier carries the site name and the url it
    was given. *)
Lemma interpret_response_shape site_name site_data url resp res :
  interpret_response site_name site_data url resp = Ok res ->
  exists verdict, res = (site_name, verdict, url).
Proof.
  unfold interpret_response. intros Hres.
  repeat (match type of Hres with
          | context [if ?b then _ else _] => destruct b
          | context [match ?o with Some _ => _ | None => _ end] => destruct o
          | context [read_limited_text ?r ?l] => destruct (read_limited_text r l); simpl in Hres
          end; try discriminate);
    injection Hres as <-; eauto.
Qed.

(** C3: a response with status 404 or 410 is classified not found, whatever
    patterns the profile has and whatever the redirects and the body are;
    nothing else is looked at. *)
Theorem interpret_response_hard_not_found site_name site_data url resp :
  status resp = 404 \/ status resp = 410 ->
  interpret_response site_name site_data url resp
  = Ok (site_name, NotFound, url).
Proof.
  intros Hst. unfold interpret_response.
  assert (status_in (status resp) [404; 410] = true) as ->; [|done].
  apply status_in_spec. simpl. destruct Hst; auto.
Qed.

(** C2, in the form the code satisfies: when the bad redirect pattern of the profile matches the
    final url or a url of the redirect history, and the status is neither
    404 nor 410, the verdict is uncertain; the body is not read, so no rule
    on the body of a 200 response applies. *)
Theorem bad_redirect_uncertain site_name site_data url resp bad_re u :
  _bad_redirect_re site_data = Some bad_re ->
  u = resp_url resp \/ In u (history resp) ->
  search bad_re u = true ->
  status resp <> 404 -> status resp <> 410 ->
  interpret_response site_name site_data url resp
  = Ok (site_name, Uncertain, url).
Proof.
  intros Hre Hu Hmatch H404 H410. unfold interpret_response.
  assert (status_in (status resp) [404; 410] = false) as ->.
  { apply not_true_is_false. rewrite status_in_spec. simpl. intuition. }
  assert (looks_like_bad_redirect site_data resp = true) as ->; [|done].
  apply looks_like_bad_redirect_spec. eauto.
Qed.

(** C1: on a response with status 200 that is no bad redirect, a profile
    with neither a not-found pattern nor a must-contain pattern is uncertain
    and its body is not read; otherwise the text is read and a match of the
    not-found pattern gives not found, else the must-contain pattern, when
    there is one, gives exists on a match and uncertain without, else the
    verdict is exists.  A failure of the read is the failure of the
    classifier. *)
Theorem interpret_response_200 site_name site_data url resp :
  status resp = 200 ->
  looks_like_bad_redirect site_data resp = false ->
  let nf := _not_found_re site_data in
  let must := _must_re site_data in
  let verdict := interpret_response site_name site_data url resp in
  (nf = None -> must = None -> verdict = Ok (site_name, Uncertain, url))
  /\ (nf <> None \/ must <> None ->
      (forall e, read_limited_text resp 120000 = Raise e -> verdict = Raise e)
      /\ forall text, read_limited_text resp 120000 = Ok text ->
         (forall re, nf = Some re -> search re text = true ->
            verdict = Ok (site_name, NotFound, url))
         /\ (forall re', must = Some re' ->
             (nf = None \/ exists re, nf = Some re /\ search re text = false) ->
             verdict = Ok (site_name,
                           if search re' text then Exists_ else Uncertain, url))
         /\ (forall re, nf = Some re -> search re text = false -> must = None ->
             verdict = Ok (site_name, Exists_, url))).
Proof.
  intros Hst Hbad nf must verdict. subst nf must verdict.
  unfold interpret_response. rewrite Hst, Hbad. simpl.
  destruct (_not_found_re site_data) as [nfre|],
           (_must_re site_data) as [mre|]; simpl.
  all: split; [intros; congruence || done|].
  all: intros Hsome.
  all: try (destruct Hsome; congruence).
  all: split; [by intros e ->|].
  all: intros text ->; simpl.
  all: split; [|split].
  all: try (intros; congruence).
  all: try (intros re [= <-] ->; done).
  - intros re [= <-] [?| (re0 & [= <-] & ->)]; [done|].
    by destruct (search mre text).
  - intros re [= <-] _. by destruct (search mre text).
Qed.

(** The loop of [read_limited_text] appends whole decoded chunks: it stops
    after the first chunk that brings the count to the limit. *)
Lemma read_chunks_spec stream err limit_chars chunks read out :
  (forall b, length (bytes_decode b) <= length b)%nat ->
  Forall (fun chunk => Z.of_nat (length chunk) <= 8192) stream ->
  read = Z.of_nat (length (concat chunks)) ->
  read < limit_chars ->
  read_chunks stream err limit_chars chunks read = Ok out ->
  exists n, out = chunks ++ (bytes_decode <$> take n stream)
    /\ Z.of_nat (length (concat out)) < limit_chars + 8192
    /\ (Z.of_nat (length (concat out)) < limit_chars -> n = length stream).
Proof.
  intros Hdec Hsz. revert chunks read out.
  induction Hsz as [|chunk rest Hchunk _ IH]; intros chunks read out Hread Hlt Hout.
  - simpl in Hout. destruct err; [done|]. injection Hout as <-.
    exists 0%nat. rewrite app_nil_r. repeat split; lia.
  - simpl in Hout.
    assert (length (concat (chunks ++ [bytes_decode chunk]))
            = (length (concat chunks) + length (bytes_decode chunk))%nat) as Hlen.
    { rewrite concat_app, length_app. simpl. rewrite app_nil_r. done. }
    specialize (Hdec chunk) as Hd.
    destruct (limit_chars <=? read + Z.of_nat (length (bytes_decode chunk)))
      eqn:Hcmp.
    + injection Hout as <-. exists 1%nat. simpl. try rewrite take_0; simpl.
      apply Z.leb_le in Hcmp. rewrite Hlen. repeat split; lia.
    + apply Z.leb_gt in Hcmp.
      apply IH in Hout as (n & -> & Hbound & Hall); [| lia | lia].
      exists (S n). simpl. rewrite <- app_assoc. simpl.
      rewrite <- app_assoc in Hbound, Hall. simpl in Hbound, Hall.
      repeat split; [done|]. intros Hlt'. f_equal. auto.
Qed.

(** C7, in the form the code satisfies: the text the classifier reads is made of whole decoded
    chunks of the body, in order; reading stops after the first chunk that
    brings the count to the limit, so the text is shorter than the limit
    plus one chunk of 8192 bytes (and may be longer than the limit), and a
    text shorter than the limit is the whole body. *)
Theorem read_limited_text_bound resp limit_chars text :
  (forall b, length (bytes_decode b) <= length b)%nat ->
  Forall (fun chunk => Z.of_nat (length chunk) <= 8192) (content resp) ->
  0 < limit_chars ->
  read_limited_text resp limit_chars = Ok text ->
  exists n, text = concat (bytes_decode <$> take n (content resp))
    /\ Z.of_nat (length text) < limit_chars + 8192
    /\ (Z.of_nat (length text) < limit_chars -> n = length (content resp)).
Proof.
  intros Hdec Hsz Hpos. unfold read_limited_text.
  destruct (read_chunks _ _ _ _ _) as [out|e] eqn:Hout; [|done].
  simpl. intros [= <-].
  eapply read_chunks_spec in Hout as (n & -> & ? & ?); eauto.
Qed.

End Classifier.

(** ** The probe executor *)

Section Executor.
Context `{PyRuntime}.

(** An attempt issues the method, and at most one GET after it. *)
Lemma attempt_body_events net site_name site_data url method attempt :
  (attempt_body net site_name site_data url method attempt).2
  = [Request method url]
  \/ (attempt_body net site_name site_data url method attempt).2
     = [Request method url; Request (lit "GET") url].
Proof.
  unfold attempt_body. repeat case_match; simpl; auto.
Qed.

Lemma backoff_0 : backoff 0 = 1 # 4.
Proof. reflexivity. Qed.

Lemma backoff_1 : backoff 1 = 1 # 2.
Proof. reflexivity. Qed.

(** An attempt that returns ends the loop with its verdict and events. *)
Lemma retry_loop_first_ok net site_name site_data url method attempt rest res :
  (attempt_body net site_name site_data url method attempt).1 = Ok res ->
  retry_loop net site_name site_data url method (attempt :: rest)
  = (res, (attempt_body net site_name site_data url method attempt).2).
Proof.
  intros Hok. simpl.
  destruct (attempt_body _ _ _ _ _ _) as [r evs]. simpl in *. by subst.
Qed.

(** An attempt that raises is followed by the backoff and the next one,
    unless it is the last. *)
Lemma retry_loop_first_raise net site_name site_data url method attempt rest e :
  (attempt_body net site_name site_data url method attempt).1 = Raise e ->
  retry_loop net site_name site_data url method (attempt :: rest)
  = if (attempt =? 2)%nat
    then ((site_name, None, url),
          (attempt_body net site_name site_data url method attempt).2)
    else
      let '(res, evs') := retry_loop net site_name site_data url method rest in
      (res, (attempt_body net site_name site_data url method attempt).2
            ++ Sleep (backoff attempt) :: evs').
Proof.
  intros Hraise. simpl.
  destruct (attempt_body _ _ _ _ _ _) as [r evs]. simpl in *. subst.
  by destruct (is_transport_error e).
Qed.

(** Whatever the network does, a probe whose url could be built returns the
    site name, a verdict and that url. *)
Lemma retry_loop_shape net site_name site_data url method attempts :
  exists verdict,
    (retry_loop net site_name site_data url method attempts).1
    = (site_name, verdict, url).
Proof.
  induction attempts as [|attempt rest [v IH]]; [by exists None|].
  destruct (attempt_body net site_name site_data url method attempt).1
    as [res|e] eqn:Hbody.
  - rewrite (retry_loop_first_ok _ _ _ _ _ _ _ _ Hbody). simpl.
    unfold attempt_body in Hbody.
    repeat case_match; simpl in Hbody; try discriminate;
      by eapply interpret_response_shape.
  - rewrite (retry_loop_first_raise _ _ _ _ _ _ _ _ Hbody).
    destruct (attempt =? 2)%nat; [by exists None|].
    destruct (retry_loop _ _ _ _ _ rest). simpl in *. eauto.
Qed.

Lemma check_username_shape net site_name site_data username url :
  build_url site_data username = Ok url ->
  exists verdict evs,
    check_username net site_name site_data username
    = (Ok (site_name, verdict, url), evs).
Proof.
  intros Hurl. unfold check_username. rewrite Hurl.
  destruct (retry_loop_shape net site_name site_data url
              (str_upper (default (lit "HEAD") (site_method site_data)))
              (seq 0 3)) as [v Hv].
  destruct (retry_loop _ _ _ _ _ _) as [res evs]. simpl in Hv. subst.
  eauto.
Qed.

Lemma check_username_raise net site_name site_data username e :
  build_url site_data username = Raise e ->
  check_username net site_name site_data username = (Raise e, []).
Proof. intros Hurl. unfold check_username. by rewrite Hurl. Qed.

(** C4: a probe whose three attempts all fail, with a transport error or
    any other exception, issues exactly three attempts, sleeps 0.25 s after
    the first and 0.5 s after the second, and returns the verdict uncertain
    with the url it built; it returns, it does not raise. *)
Theorem check_username_retry_cap net site_name site_data username url :
  build_url site_data username = Ok url ->
  let method := str_upper (default (lit "HEAD") (site_method site_data)) in
  (forall attempt, (attempt < 3)%nat ->
     exists e, (attempt_body net site_name site_data url method attempt).1
               = Raise e) ->
  exists a0 a1 a2,
    check_username net site_name site_data username
    = (Ok (site_name, Uncertain, url),
       a0 ++ Sleep (1 # 4) :: a1 ++ Sleep (1 # 2) :: a2)
    /\ Forall (fun a => a = [Request method url]
                       \/ a = [Request method url; Request (lit "GET") url])
              [a0; a1; a2].
Proof.
  intros Hurl method Hfail.
  destruct (Hfail 0%nat ltac:(lia)) as [e0 H0].
  destruct (Hfail 1%nat ltac:(lia)) as [e1 H1].
  destruct (Hfail 2%nat ltac:(lia)) as [e2 H2].
  exists (attempt_body net site_name site_data url method 0).2,
         (attempt_body net site_name site_data url method 1).2,
         (attempt_body net site_name site_data url method 2).2.
  split.
  - unfold check_username. rewrite Hurl. fold method.
    change (seq 0 3) with [0; 1; 2]%nat.
    rewrite (retry_loop_first_raise _ _ _ _ _ _ _ _ H0).
    rewrite (retry_loop_first_raise _ _ _ _ _ _ _ _ H1).
    rewrite (retry_loop_first_raise _ _ _ _ _ _ _ _ H2).
    simpl. by rewrite backoff_0, backoff_1.
  - repeat (apply Forall_cons_2; [apply attempt_body_events|]).
    apply Forall_nil_2.
Qed.

(** C5, in the form the code satisfies: the configured method, upper-cased and HEAD by default,
    is issued first.  In every attempt, when that method is HEAD and its
    response has a status among 403, 405, 429, 500, 502 and 503, one GET
    follows and the response of the GET is the one classified; with any
    other status, 200 among them, or any other method, no request follows
    and the first response is classified.  When the classification of the
    first attempt returns, it is the result of the probe. *)
Theorem check_username_method_fallback net site_name site_data username url :
  build_url site_data username = Ok url ->
  let method := str_upper (default (lit "HEAD") (site_method site_data)) in
  let body := attempt_body net site_name site_data url method in
  (exists evs, (check_username net site_name site_data username).2
               = Request method url :: evs)
  /\ (forall attempt resp, net attempt method url = Ok resp ->
        (method = lit "HEAD" ->
         status_in (status resp) [403; 405; 429; 500; 502; 503] = true ->
           body attempt
           = (net attempt (lit "GET") url
                ≫= interpret_response site_name site_data url,
              [Request method url; Request (lit "GET") url]))
        /\ (method <> lit "HEAD"
            \/ status_in (status resp) [403; 405; 429; 500; 502; 503] = false ->
            body attempt
            = (interpret_response site_name site_data url resp,
               [Request method url]))
        /\ (status resp = 200 -> (body attempt).2 = [Request method url]))
  /\ (forall res, (body 0%nat).1 = Ok res ->
        check_username net site_name site_data username
        = (Ok res, (body 0%nat).2)).
Proof.
  intros Hurl method body. split; [|split].
  - unfold check_username. rewrite Hurl. fold method.
    change (seq 0 3) with [0; 1; 2]%nat.
    destruct (attempt_body net site_name site_data url method 0).1
      as [res|e] eqn:Hbody.
    + rewrite (retry_loop_first_ok _ _ _ _ _ _ _ _ Hbody). simpl.
      destruct (attempt_body_events net site_name site_data url method 0)
        as [-> | ->]; eauto.
    + rewrite (retry_loop_first_raise _ _ _ _ _ _ _ _ Hbody).
      change (0 =? 2)%nat with false. cbv iota.
      destruct (retry_loop net site_name site_data url method [1; 2]%nat)
        as [res evs]. cbn [snd].
      destruct (attempt_body_events net site_name site_data url method 0)
        as [-> | ->]; simpl; eauto.
  - intros attempt resp Hresp. subst body. unfold attempt_body.
    rewrite Hresp. unfold str_eqb.
    split; [|split].
    + intros -> ->. rewrite bool_decide_eq_true_2 by done. simpl.
      by destruct (net attempt (lit "GET") url).
    + intros [Hne | ->].
      * by rewrite bool_decide_eq_false_2.
      * by rewrite andb_false_r.
    + intros Hst. rewrite Hst. by rewrite andb_false_r.
  - intros res Hres. unfold check_username. rewrite Hurl. fold method.
    change (seq 0 3) with [0; 1; 2]%nat.
    by rewrite (retry_loop_first_ok _ _ _ _ _ _ _ _ Hres).
Qed.

End Executor.

(** ** The biography *)

Section Biography.

Lemma gt_index_None s : gt_index s = None <-> 62%N ∉ s.
Proof.
  induction s as [|c s IH]; simpl.
  - split; [intros _; apply not_elem_of_nil | done].
  - destruct (N.eqb_spec c 62) as [->|Hne].
    + split; [done|]. intros Hnot. exfalso. apply Hnot. by left.
    + rewrite not_elem_of_cons. destruct (gt_index s); simpl.
      * split; [done|]. intros [_ Hnot]. by apply IH in Hnot.
      * split; [|done]. intros _. split; [congruence|]. by apply IH.
Qed.

(** The tag pattern does not match after a [<] exactly when nothing
    follows, or a [>] follows at once, or no [>] follows at all. *)
Lemma tag_rest_len_None s :
  tag_rest_len s = None <->
  s = [] \/ (exists s', s = 62%N :: s') \/ 62%N ∉ s.
Proof.
  destruct s as [|c s]; simpl.
  - split; auto.
  - destruct (N.eqb_spec c 62) as [->|Hne].
    + split; eauto.
    + rewrite fmap_None, gt_index_None, not_elem_of_cons. split.
      * intros Hnot. right. right. split; [congruence | done].
      * intros [? | [[s' ?] | [_ ?]]]; [done | congruence | done].
Qed.

Lemma elem_of_sub_tags x skip s : x ∈ sub_tags skip s -> x ∈ s.
Proof.
  revert skip. induction s as [|c s IH]; intros skip; simpl; [done|].
  destruct skip as [|k].
  - destruct (c =? 60)%N; [destruct (tag_rest_len s)|].
    + intros Hin. right. eauto.
    + rewrite !elem_of_cons. intros [-> | Hin]; eauto.
    + rewrite !elem_of_cons. intros [-> | Hin]; eauto.
  - intros Hin. right. eauto.
Qed.

Lemma tag_rest_len_sub_tags s :
  tag_rest_len s = None -> tag_rest_len (sub_tags 0 s) = None.
Proof.
  rewrite !tag_rest_len_None. intros [-> | [[s' ->] | Hnot]].
  - by left.
  - right. left. simpl. eauto.
  - right. right. intros Hin. apply Hnot. by eapply elem_of_sub_tags.
Qed.

Lemma no_tag_nil : no_tag [].
Proof. intros [|? ?] rest Heq; discriminate. Qed.

Lemma no_tag_cons_other c s : c <> 60%N -> no_tag s -> no_tag (c :: s).
Proof.
  intros Hne Hs [|c' pre] rest Heq; simplify_eq/=. by eapply Hs.
Qed.

Lemma no_tag_cons_lt s :
  tag_rest_len s = None -> no_tag s -> no_tag (60%N :: s).
Proof.
  intros Hrest Hs [|c' pre] rest Heq; simplify_eq/=; [done|]. by eapply Hs.
Qed.

Lemma no_tag_tail c s : no_tag (c :: s) -> no_tag s.
Proof. intros Hs pre rest ->. by apply (Hs (c :: pre)). Qed.

Lemma no_tag_suffix ws s : no_tag (ws ++ s) -> no_tag s.
Proof. induction ws as [|c ws IH]; [done|]. intros Hs. eauto using no_tag_tail. Qed.

Lemma sub_tags_no_tag skip s : no_tag (sub_tags skip s).
Proof.
  revert skip. induction s as [|c s IH]; intros skip; simpl.
  - apply no_tag_nil.
  - destruct skip as [|k]; [|done].
    destruct (N.eqb_spec c 60) as [->|Hne].
    + destruct (tag_rest_len s) eqn:Hrest; [done|].
      apply no_tag_cons_lt; [by apply tag_rest_len_sub_tags | done].
    + by apply no_tag_cons_other.
Qed.

(** Replacing what follows a text by a tail without [<] and [>] makes no
    tag. *)
Lemma tag_rest_len_tail t u tail :
  tag_rest_len (t ++ u) = None -> 62%N ∉ tail ->
  tag_rest_len (t ++ tail) = None.
Proof.
  rewrite !tag_rest_len_None. intros Htu Htail.
  destruct t as [|c t]; simpl in *; [auto|].
  destruct Htu as [? | [[s' ?] | Hnot]]; [done | simplify_eq; eauto |].
  right. right. apply not_elem_of_cons in Hnot as [Hc Hnot].
  apply not_elem_of_app in Hnot as [Ht _].
  apply not_elem_of_cons. split; [done|]. by apply not_elem_of_app.
Qed.

Lemma no_tag_tail_change t u tail :
  no_tag (t ++ u) -> 60%N ∉ tail -> 62%N ∉ tail -> no_tag (t ++ tail).
Proof.
  intros Htu Hlt Hgt. induction t as [|c t IH]; simpl in *.
  - intros pre rest ->. exfalso. apply Hlt. set_solver.
  - destruct (N.eqb_spec c 60) as [->|Hne].
    + apply no_tag_cons_lt; [|eauto using no_tag_tail].
      eapply tag_rest_len_tail; [|done]. by apply (Htu []).
    + apply no_tag_cons_other; eauto using no_tag_tail.
Qed.

Lemma no_tag_prefix s ws : no_tag (s ++ ws) -> no_tag s.
Proof.
  intros Hs. rewrite <- (app_nil_r s).
  eapply no_tag_tail_change; [done | |]; apply not_elem_of_nil.
Qed.

Lemma lstrip_suffix s : exists ws, s = ws ++ lstrip s.
Proof.
  induction s as [|c s [ws IH]]; simpl; [by exists []|].
  destruct (isspace c).
  - exists (c :: ws). simpl. by f_equal.
  - by exists [].
Qed.

Lemma strip_infix s : exists l r, s = l ++ strip s ++ r.
Proof.
  unfold strip, rstrip.
  destruct (lstrip_suffix s) as [l Hl].
  destruct (lstrip_suffix (reverse (lstrip s))) as [r Hr].
  exists l, (reverse r). rewrite <- reverse_app, <- Hr, reverse_involutive. done.
Qed.

Lemma no_tag_strip s : no_tag s -> no_tag (strip s).
Proof.
  destruct (strip_infix s) as (l & r & Heq). intros Hs. rewrite Heq in Hs.
  eauto using no_tag_suffix, no_tag_prefix.
Qed.

Lemma elem_of_sub_spaces x in_run s :
  x ∈ sub_spaces in_run s -> x = 32%N \/ x ∈ s /\ isspace x = false.
Proof.
  revert in_run. induction s as [|c s IH]; intros in_run; simpl.
  { by intros ?%elem_of_nil. }
  destruct (isspace c) eqn:Hc; [destruct in_run|].
  all: rewrite ?(elem_of_cons _ x).
  - intros Hin. apply IH in Hin as [?|[? ?]]; auto.
  - intros [-> | Hin]; [by left|].
    apply IH in Hin as [?|[? ?]]; auto.
  - intros [-> | Hin]; [auto|].
    apply IH in Hin as [?|[? ?]]; auto.
Qed.

Lemma tag_rest_len_sub_spaces s :
  tag_rest_len s = None -> tag_rest_len (sub_spaces false s) = None.
Proof.
  rewrite !tag_rest_len_None. intros [-> | [[s' ->] | Hnot]].
  - by left.
  - right. left. simpl. eauto.
  - right. right. intros Hin.
    apply elem_of_sub_spaces in Hin as [?|[? ?]]; done.
Qed.

Lemma no_tag_sub_spaces in_run s : no_tag s -> no_tag (sub_spaces in_run s).
Proof.
  revert in_run. induction s as [|c s IH]; intros in_run Hs; simpl.
  - apply no_tag_nil.
  - pose proof (no_tag_tail _ _ Hs) as Hs'.
    destruct (isspace c) eqn:Hc; [destruct in_run|].
    + eauto.
    + apply no_tag_cons_other; [done | eauto].
    + destruct (N.eqb_spec c 60) as [->|Hne].
      * apply no_tag_cons_lt; [|eauto].
        apply tag_rest_len_sub_spaces. by apply (Hs []).
      * apply no_tag_cons_other; eauto.
Qed.

(** A character is none of those of a literal. *)
Ltac not_in_literal :=
  let Hin := fresh "Hin" in
  intros Hin; vm_compute in Hin;
  repeat (apply elem_of_cons in Hin as [Hin|Hin]; [discriminate|]);
  by apply elem_of_nil in Hin.

Lemma no_tag_clip_bio s : no_tag s -> no_tag (clip_bio s).
Proof.
  unfold clip_bio. intros Hs. destruct (80 <? length s)%nat; [|done].
  rewrite <- (take_drop 80 s) in Hs.
  eapply no_tag_tail_change; [done | |]; not_in_literal.
Qed.

(** After a run of white space was replaced, no white space follows. *)
Lemma sub_spaces_true_head s c r :
  sub_spaces true s = c :: r -> isspace c = false.
Proof.
  induction s as [|c' s IH]; simpl; [done|].
  destruct (isspace c') eqn:Hc; [done|]. by intros [= <- _].
Qed.

Lemma sub_spaces_adjacent in_run s pre a b post :
  sub_spaces in_run s = pre ++ a :: b :: post ->
  isspace a = true -> isspace b = false.
Proof.
  revert in_run pre. induction s as [|c s IH]; intros in_run pre; simpl.
  { by destruct pre. }
  destruct (isspace c) eqn:Hc; [destruct in_run|].
  - eauto.
  - destruct pre as [|c' pre]; simpl; intros [= <- Heq]; [|eauto].
    intros _. by eapply sub_spaces_true_head.
  - destruct pre as [|c' pre]; simpl; intros [= <- Heq]; [congruence|eauto].
Qed.

Lemma sub_spaces_only_space in_run s c :
  c ∈ sub_spaces in_run s -> isspace c = true -> c = 32%N.
Proof.
  intros Hin Hc. apply elem_of_sub_spaces in Hin as [?|[_ ?]]; congruence.
Qed.

Lemma clip_bio_spec bio :
  ((length bio <= 80)%nat -> clip_bio bio = bio)
  /\ ((80 < length bio)%nat -> clip_bio bio = take 80 bio ++ lit "...")
  /\ (length (clip_bio bio) <= 83)%nat.
Proof.
  unfold clip_bio. destruct (Nat.ltb_spec 80 (length bio)) as [Hlong|Hshort].
  - split; [lia|]. split; [done|].
    rewrite length_app, length_take.
    change (length (lit "...")) with 3%nat. lia.
  - split; [done|]. split; lia.
Qed.

Lemma lstrip_spec s :
  exists ws,
    s = ws ++ lstrip s
    /\ Forall (fun c => isspace c = true) ws
    /\ forall c t, lstrip s = c :: t -> isspace c = false.
Proof.
  induction s as [|c s (ws & Heq & Hws & Hhead)]; simpl.
  { exists []. split_and!; [done | constructor | done]. }
  destruct (isspace c) eqn:Hc.
  - exists (c :: ws). split_and!; [simpl; by f_equal | by constructor | done].
  - exists []. split_and!; [done | constructor |]. by intros ? ? [= <- _].
Qed.

Lemma lstrip_id s :
  (forall c t, s = c :: t -> isspace c = false) -> lstrip s = s.
Proof.
  destruct s as [|c s]; [done|]. intros Hhead. simpl.
  by rewrite (Hhead c s eq_refl).
Qed.

Lemma last_reverse (s t : str) c : s = t ++ [c] -> reverse s = c :: reverse t.
Proof. intros ->. by rewrite reverse_app. Qed.

(** [strip] removes white space at both ends and nothing else: the text is
    its stripped form between two runs of white space, the stripped form
    neither begins nor ends with white space, and stripping it again
    changes nothing. *)
Lemma strip_spec s :
  (exists l r,
     s = l ++ strip s ++ r
     /\ Forall (fun c => isspace c = true) l
     /\ Forall (fun c => isspace c = true) r)
  /\ (forall c t, strip s = c :: t -> isspace c = false)
  /\ (forall t c, strip s = t ++ [c] -> isspace c = false)
  /\ strip (strip s) = strip s.
Proof.
  unfold strip, rstrip.
  destruct (lstrip_spec s) as (l & Hl & Hlws & Hlhead).
  destruct (lstrip_spec (reverse (lstrip s))) as (r & Hr & Hrws & Hrhead).
  set (t := lstrip (reverse (lstrip s))) in *.
  assert (lstrip s = reverse t ++ reverse r) as Ht.
  { by rewrite <- reverse_app, <- Hr, reverse_involutive. }
  assert (forall c u, reverse t = c :: u -> isspace c = false) as Hhead.
  { intros c u Hu. apply (Hlhead c (u ++ reverse r)). by rewrite Ht, Hu. }
  assert (forall u c, reverse t = u ++ [c] -> isspace c = false) as Hlast.
  { intros u c Hu. apply (Hrhead c (reverse u)).
    rewrite <- (reverse_involutive t). by apply last_reverse. }
  split_and!; [|done|done|].
  - exists l, (reverse r). split_and!; [|done|].
    + by rewrite <- Ht.
    + by apply Forall_reverse.
  - rewrite (lstrip_id (reverse t)) by done.
    rewrite reverse_involutive. fold t in Hrhead.
    by rewrite (lstrip_id t).
Qed.

Lemma sub_tags_fixpoint s : no_tag s -> sub_tags 0 s = s.
Proof.
  induction s as [|c s IH]; [done|]. intros Hs. simpl.
  pose proof (no_tag_tail _ _ Hs) as Hs'.
  destruct (N.eqb_spec c 60) as [->|Hne]; [|by rewrite IH].
  rewrite (Hs [] s eq_refl). by rewrite IH.
Qed.

Lemma sub_tags_sublist skip s : sublist (sub_tags skip s) s.
Proof.
  revert skip. induction s as [|c s IH]; intros skip; simpl; [done|].
  destruct skip as [|k]; [|by constructor].
  destruct (c =? 60)%N; [destruct (tag_rest_len s)|]; by constructor.
Qed.

Lemma sub_spaces_snoc in_run s c :
  isspace c = false ->
  sub_spaces in_run (s ++ [c])
  = sub_spaces in_run s ++ [c].
Proof.
  intros Hc. revert in_run. induction s as [|d s IH]; intros in_run; simpl.
  { by rewrite Hc. }
  destruct (isspace d); [destruct in_run|]; by rewrite IH.
Qed.

(** A text that neither begins nor ends with white space. *)
Lemma sub_spaces_ends (t : str) :
  (forall c u, t = c :: u -> isspace c = false) ->
  (forall u c, t = u ++ [c] -> isspace c = false) ->
  (forall c u, sub_spaces false t = c :: u -> isspace c = false)
  /\ (forall u c, sub_spaces false t = u ++ [c] -> isspace c = false).
Proof.
  intros Hhead Hlast. split.
  - destruct t as [|d t]; [done|]. simpl.
    rewrite (Hhead d t eq_refl). intros c u [= <- _].
    exact (Hhead d t eq_refl).
  - destruct (decide (t = [])) as [->|Hne].
    { intros u c Heq. simpl in Heq. by destruct u. }
    destruct (exists_last Hne) as (t' & d & ->).
    rewrite sub_spaces_snoc by eauto. intros u c Heq.
    apply app_inj_tail in Heq as [_ <-]. eauto.
Qed.

Lemma clip_bio_ends (t : str) :
  (forall c u, t = c :: u -> isspace c = false) ->
  (forall u c, t = u ++ [c] -> isspace c = false) ->
  (forall c u, clip_bio t = c :: u -> isspace c = false)
  /\ (forall u c, clip_bio t = u ++ [c] -> isspace c = false).
Proof.
  intros Hhead Hlast. unfold clip_bio.
  destruct (80 <? length t)%nat eqn:Hlen; [|done].
  apply Nat.ltb_lt in Hlen. split.
  - destruct t as [|d t]; [simpl in Hlen; lia|].
    simpl. intros c u [= <- _]. eauto.
  - intros u c Heq.
    change (lit "...") with ([46; 46]%N ++ [46%N]) in Heq.
    rewrite app_assoc in Heq. by apply app_inj_tail in Heq as [_ <-].
Qed.

(** *** What the stages of the cleaning do *)

Lemma gt_index_app (body post : str) :
  62%N ∉ body -> gt_index (body ++ 62%N :: post) = Some (length body).
Proof.
  induction body as [|c body IH]; simpl; [done|].
  intros [Hc Hbody]%not_elem_of_cons.
  destruct (N.eqb_spec c 62); [congruence|]. by rewrite IH.
Qed.

Lemma tag_rest_len_app (body post : str) :
  body <> [] -> 62%N ∉ body ->
  tag_rest_len (body ++ 62%N :: post) = Some (S (length body)).
Proof.
  destruct body as [|c body]; [done|]. intros _ [Hc Hbody]%not_elem_of_cons.
  simpl. destruct (N.eqb_spec c 62); [congruence|].
  by rewrite gt_index_app.
Qed.

Lemma sub_tags_skip (l r : str) : sub_tags (length l) (l ++ r) = sub_tags 0 r.
Proof. induction l as [|c l IH]; [done | apply IH]. Qed.

(** The leftmost tag of a text is removed, and what precedes it is kept:
    no tag begins in [pre] when each of its [<] is followed by [>]. *)
Lemma sub_tags_leftmost (pre body post : str) :
  (forall p r, pre = p ++ 60%N :: r -> exists r', r = 62%N :: r') ->
  body <> [] -> 62%N ∉ body ->
  sub_tags 0 (pre ++ 60%N :: body ++ 62%N :: post) = pre ++ sub_tags 0 post.
Proof.
  intros Hpre Hne Hbody. induction pre as [|c pre IH]; simpl.
  - rewrite tag_rest_len_app by done.
    replace (S (length body)) with (length (body ++ [62%N]))
      by (rewrite length_app; simpl; lia).
    replace (body ++ 62%N :: post) with ((body ++ [62%N]) ++ post)
      by (by rewrite <- app_assoc).
    apply sub_tags_skip.
  - rewrite IH by (intros p r ->; by apply (Hpre (c :: p) r)).
    destruct (N.eqb_spec c 60) as [->|]; [|done].
    destruct (Hpre [] pre eq_refl) as [r' ->]. done.
Qed.

Lemma sub_spaces_run (ws s : str) :
  Forall (fun c => isspace c = true) ws ->
  (forall c t, s = c :: t -> isspace c = false) ->
  sub_spaces true (ws ++ s) = sub_spaces false s.
Proof.
  intros Hws Hhead. induction Hws as [|w ws Hw _ IH]; simpl.
  - destruct s as [|c t]; [done|]. simpl. by rewrite (Hhead c t eq_refl).
  - by rewrite Hw.
Qed.

(** A run of white space becomes one space. *)
Lemma sub_spaces_collapse (ws s : str) :
  ws <> [] ->
  Forall (fun c => isspace c = true) ws ->
  (forall c t, s = c :: t -> isspace c = false) ->
  sub_spaces false (ws ++ s) = 32%N :: sub_spaces false s.
Proof.
  destruct ws as [|w ws]; [done|]. intros _ [Hw Hws]%Forall_cons Hhead.
  simpl. rewrite Hw. f_equal. by apply sub_spaces_run.
Qed.

(** C9, in the form the code satisfies.  The bio made from the
    UserDescription block is its text with the markup stripped, then
    trimmed, collapsed and truncated; the bio made from the meta description
    is its text trimmed, collapsed and truncated, and keeps any markup.
    Stripping the markup leaves a text without a tag unchanged and removes
    the leftmost tag of a text, keeping what precedes it; what it returns
    has no tag.  Trimming removes the white space at both ends and nothing
    else.  Collapsing keeps every other character and turns each run of
    white space into one space.  A cleaned text of more than 80 characters
    is cut to its first 80 characters followed by three dots, and returned
    unchanged otherwise.  Hence on both paths the cleaned text neither
    begins nor ends with white space, holds no two adjacent white-space
    characters and no white space other than the space, and the bio has at
    most 83 characters. *)
Theorem bio_cleaning group1 :
  bio_of_description group1
  = clip_bio (collapse_spaces (strip (strip_tags group1)))
  /\ bio_of_meta group1 = clip_bio (collapse_spaces (strip group1))
  /\ (forall s, no_tag s -> strip_tags s = s)
  /\ (forall pre body post,
        (forall p r, pre = p ++ 60%N :: r -> exists r', r = 62%N :: r') ->
        body <> [] -> 62%N ∉ body ->
        strip_tags (pre ++ 60%N :: body ++ 62%N :: post)
        = pre ++ strip_tags post)
  /\ (forall s, no_tag (strip_tags s))
  /\ (forall s,
        (exists l r,
           s = l ++ strip s ++ r
           /\ Forall (fun c => isspace c = true) l
           /\ Forall (fun c => isspace c = true) r)
        /\ (forall c t, strip s = c :: t -> isspace c = false)
        /\ (forall t c, strip s = t ++ [c] -> isspace c = false))
  /\ collapse_spaces [] = []
  /\ (forall c s, isspace c = false ->
        collapse_spaces (c :: s) = c :: collapse_spaces s)
  /\ (forall ws s,
        ws <> [] -> Forall (fun c => isspace c = true) ws ->
        (forall c t, s = c :: t -> isspace c = false) ->
        collapse_spaces (ws ++ s) = 32%N :: collapse_spaces s)
  /\ (forall t, (length t <= 80)%nat -> clip_bio t = t)
  /\ (forall t, (80 < length t)%nat -> clip_bio t = take 80 t ++ lit "...")
  /\ no_tag (bio_of_description group1)
  /\ forall bio cleaned,
       (bio = bio_of_description group1
        /\ cleaned = collapse_spaces (strip (strip_tags group1)))
       \/ (bio = bio_of_meta group1
           /\ cleaned = collapse_spaces (strip group1)) ->
       (forall c t, cleaned = c :: t -> isspace c = false)
       /\ (forall t c, cleaned = t ++ [c] -> isspace c = false)
       /\ (forall pre a b post, cleaned = pre ++ a :: b :: post ->
             isspace a = true -> isspace b = false)
       /\ (forall c, c ∈ cleaned -> isspace c = true -> c = 32%N)
       /\ ((length cleaned <= 80)%nat -> bio = cleaned)
       /\ ((80 < length cleaned)%nat -> bio = take 80 cleaned ++ lit "...")
       /\ (length bio <= 83)%nat.
Proof.
  split_and!.
  - done.
  - done.
  - apply sub_tags_fixpoint.
  - apply sub_tags_leftmost.
  - intros s. apply sub_tags_no_tag.
  - intros s. destruct (strip_spec s) as (? & ? & ? & _). done.
  - done.
  - intros c s Hc. unfold collapse_spaces. simpl. by rewrite Hc.
  - apply sub_spaces_collapse.
  - intros t. apply clip_bio_spec.
  - intros t. apply clip_bio_spec.
  - unfold bio_of_description, strip_tags, collapse_spaces.
    apply no_tag_clip_bio, no_tag_sub_spaces, no_tag_strip, sub_tags_no_tag.
  - intros bio cleaned Hpath.
    assert (bio = clip_bio cleaned
            /\ exists s, cleaned = sub_spaces false (strip s))
      as [-> [s ->]].
    { destruct Hpath as [[-> ->] | [-> ->]]; split; try done;
        unfold collapse_spaces; eauto. }
    pose proof (clip_bio_spec (sub_spaces false (strip s))) as (? & ? & ?).
    destruct (strip_spec s) as (_ & Hhead & Hlast & _).
    destruct (sub_spaces_ends (strip s) Hhead Hlast) as [? ?].
    split_and!; eauto using sub_spaces_adjacent, sub_spaces_only_space.
Qed.

End Biography.

(** ** The scan orchestrator *)

Section Scan.
Context `{PyRuntime}.


(** The loop over the completed tasks only collects: its events are the
    probes, its results are what the tasks returned, in that order. *)
Lemma collect_spec sites uname futs results x :
  Forall (fun ev => is_probe ev = true /\ event_username ev = uname)
         (collect sites uname futs results x).2
  /\ forall results' x',
       (collect sites uname futs results x).1 = Ok (results', x') ->
       exists new,
         results' = results ++ new
         /\ Forall2 (fun (t : Task) r => t.2.1 = Ok r) futs new
         /\ x' = x || existsb (high_signal sites) new
         /\ (collect sites uname futs results x).2
            = (fun t : Task => Probe uname t.1 t.2.2) <$> futs.
Proof.
  revert results x.
  induction futs as [|[site_name [r evs]] rest IH]; intros results x; simpl.
  - split; [constructor|]. intros ? ? [= <- <-]. exists [].
    rewrite app_nil_r, orb_false_r. repeat split; constructor.
  - destruct r as [[[site v] url]|e]; simpl; last first.
    { split; [by repeat constructor | discriminate]. }
    match goal with
    | |- context [collect sites uname rest ?rs ?xs] =>
        specialize (IH rs xs); destruct (collect sites uname rest rs xs)
          as [out tr]
    end.
    simpl in *. destruct IH as [Htr Hok]. split; [by constructor|].
    intros results' x' Hout.
    destruct (Hok _ _ Hout) as (new & -> & HF & -> & ->).
    exists ((site, v, url) :: new). rewrite <- app_assoc. simpl.
    repeat split; [by constructor|].
    unfold high_signal at 2, probe_verdict, probe_site. simpl.
    by destruct (bool_decide (v = Some true) && _), x.
Qed.



Lemma enrich_spec env uname x_exists bios_cache :
  (enrich env uname x_exists bios_cache).2
  = (if x_exists then [Enrich uname (fetch_x_bio (x_http env) uname).2] else [])
  /\ (forall u, u <> uname ->
        (enrich env uname x_exists bios_cache).1 !! u = bios_cache !! u)
  /\ ((forall bio, x_http env (x_url uname) ≫= bio_of_response <> Ok (Some bio)) ->
      (enrich env uname x_exists bios_cache).1 = bios_cache).
Proof.
  unfold enrich, fetch_x_bio. destruct x_exists; [|done].
  destruct (x_http env (x_url uname) ≫= bio_of_response) as [[[|c bio]|]|e];
    simpl; repeat split; try done.
  - intros u Hne. by rewrite lookup_insert_ne.
  - intros Hfail. by destruct (Hfail (c :: bio)).
Qed.


(** *** One result per site *)


Lemma make_tasks_elem env sites uname (t : Task) :
  t ∈ make_tasks env sites uname ->
  exists site_data,
    sites !! t.1 = Some site_data
    /\ t.2 = check_username (http env t.1 uname) t.1 site_data uname.
Proof.
  unfold make_tasks. intros ([name sd] & -> & Hin)%list_elem_of_fmap.
  apply elem_of_map_to_list in Hin. simpl. eauto.
Qed.





Lemma sweep_events env sites uname bios_cache :
  Forall (fun ev => event_username ev = uname)
         (sweep env sites uname bios_cache).2.
Proof.
  unfold sweep.
  pose proof (collect_spec sites uname
    (as_completed env uname (make_tasks env sites uname)) [] false) as [Htr _].
  destruct (collect _ _ _ _ _) as [[[results x]|e] tr]; simpl in *.
  - destruct (enrich_spec env uname x bios_cache) as (Hbio & _ & _).
    destruct (enrich env uname x bios_cache) as [bios tr_bio].
    simpl in *. subst tr_bio. apply Forall_app. split.
    + eapply Forall_impl; [done|]. by intros ev [_ ?].
    + destruct x; by repeat constructor.
  - eapply Forall_impl; [done|]. by intros ev [_ ?].
Qed.



Lemma scan_usernames_events env sites unames all_results bios_cache :
  Forall (fun ev => event_username ev ∈ unames)
         (scan_usernames env sites unames all_results bios_cache).2.
Proof.
  revert all_results bios_cache.
  induction unames as [|uname rest IH]; intros all_results bios_cache; simpl;
    [constructor|].
  pose proof (sweep_events env sites uname bios_cache) as Hsweep.
  assert (Forall (fun ev => event_username ev ∈ uname :: rest)
            (sweep env sites uname bios_cache).2) as Hfirst.
  { eapply Forall_impl; [done|]. intros ev ->. by left. }
  destruct (sweep env sites uname bios_cache) as [[[results bios]|e] tr];
    simpl in *; [|done].
  specialize (IH (<[uname:=results]> all_results) bios).
  destruct (scan_usernames env sites rest _ bios) as [out tr']. simpl in *.
  apply Forall_app. split; [done|].
  eapply Forall_impl; [done|]. intros ev ?. by right.
Qed.

(** *** The events of a run *)

Lemma fetch_x_bio_events x_net username :
  (fetch_x_bio x_net username).2 = [Request (lit "GET") (x_url username)].
Proof.
  unfold fetch_x_bio. by destruct (x_net (x_url username) ≫= bio_of_response).
Qed.

Lemma sweep_unfold env sites uname bios_cache :
  sweep env sites uname bios_cache
  = match (sweep_collected env sites uname).1 with
    | Raise e => (Raise e, (sweep_collected env sites uname).2)
    | Ok (results, x) =>
        (Ok (results, (enrich env uname x bios_cache).1),
         (sweep_collected env sites uname).2
         ++ (enrich env uname x bios_cache).2)
    end.
Proof.
  unfold sweep, sweep_collected.
  destruct (collect _ _ _ _ _) as [[[results x]|e] tr]; [|done].
  simpl. by destruct (enrich env uname x bios_cache).
Qed.

Lemma collect_events sites uname (futs : list Task) results x ev :
  ev ∈ (collect sites uname futs results x).2 ->
  exists t : Task, t ∈ futs /\ ev = Probe uname t.1 t.2.2.
Proof.
  revert results x.
  induction futs as [|[site_name [r evs]] rest IH]; intros results x; simpl.
  { by intros ?%elem_of_nil. }
  destruct r as [[[site v] url]|e]; simpl.
  - match goal with
    | |- context [collect sites uname rest ?rs ?xs] =>
        specialize (IH rs xs); destruct (collect sites uname rest rs xs)
          as [out tr]
    end.
    simpl in *. intros [->|Hin]%elem_of_cons.
    + eexists. split; [by left | done].
    + destruct (IH Hin) as (t & ? & ?). exists t. split; [by right | done].
  - intros ->%list_elem_of_singleton.
    eexists. split; [by left | done].
Qed.

Lemma collect_raise sites uname (futs : list Task) results x :
  (exists t : Task, t ∈ futs /\ exists e, t.2.1 = Raise e) ->
  exists e, (collect sites uname futs results x).1 = Raise e.
Proof.
  revert results x.
  induction futs as [|[site_name [r evs]] rest IH]; intros results x; simpl.
  { by intros (t & ?%elem_of_nil & _). }
  intros (t & Hin & e & Ht).
  destruct r as [[[site v] url]|e']; simpl; [|eauto].
  apply elem_of_cons in Hin as [->|Hin]; [done|].
  match goal with
  | |- context [collect sites uname rest ?rs ?xs] =>
      destruct (IH rs xs) as [e' He']; [eauto|];
      destruct (collect sites uname rest rs xs) as [out tr]
  end.
  simpl in *. eauto.
Qed.

Lemma sweep_events_ok env sites uname bios_cache :
  (forall l, as_completed env uname l ≡ₚ l) ->
  Forall (scan_event_ok env sites [uname])
         (sweep env sites uname bios_cache).2.
Proof.
  intros Hperm.
  assert (Forall (scan_event_ok env sites [uname])
            (sweep_collected env sites uname).2) as Hprobes.
  { apply Forall_forall. intros ev (t & Ht & ->)%collect_events.
    rewrite Hperm in Ht.
    apply make_tasks_elem in Ht as (sd & Hsd & Hev).
    split; [by left|]. exists sd. split; [done|]. by rewrite Hev. }
  rewrite sweep_unfold.
  destruct (sweep_collected env sites uname).1 as [[results x]|e]; [|done].
  simpl. apply Forall_app. split; [done|].
  unfold enrich. destruct x; [|constructor].
  destruct (fetch_x_bio (x_http env) uname) as [bio evs] eqn:Hfetch.
  pose proof (fetch_x_bio_events (x_http env) uname) as Hevs.
  rewrite Hfetch in Hevs. simpl in *. subst evs.
  constructor; [|constructor]. split; [by left | done].
Qed.

Lemma scan_event_ok_mono env sites (l1 l2 : list str) ev :
  (forall u, u ∈ l1 -> u ∈ l2) ->
  scan_event_ok env sites l1 ev -> scan_event_ok env sites l2 ev.
Proof.
  intros Hsub. destruct ev as [u site evs|u evs]; simpl.
  - intros [? ?]. auto.
  - intros [? ?]. auto.
Qed.

Lemma scan_usernames_events_ok env sites unames all_results bios_cache :
  (forall u l, as_completed env u l ≡ₚ l) ->
  Forall (scan_event_ok env sites unames)
         (scan_usernames env sites unames all_results bios_cache).2.
Proof.
  intros Hperm. revert all_results bios_cache.
  induction unames as [|uname rest IH]; intros all_results bios_cache; simpl;
    [constructor|].
  pose proof (sweep_events_ok env sites uname bios_cache (Hperm uname))
    as Hsweep.
  assert (Forall (scan_event_ok env sites (uname :: rest))
            (sweep env sites uname bios_cache).2) as Hfirst.
  { eapply Forall_impl; [done|]. intros ev.
    apply scan_event_ok_mono. intros u ->%list_elem_of_singleton. by left. }
  destruct (sweep env sites uname bios_cache) as [[[results bios]|e] tr];
    simpl in *; [|done].
  specialize (IH (<[uname:=results]> all_results) bios).
  destruct (scan_usernames env sites rest _ bios) as [out tr']. simpl in *.
  apply Forall_app. split; [done|].
  eapply Forall_impl; [done|]. intros ev.
  apply scan_event_ok_mono. intros u ?. by right.
Qed.

Lemma scan_usernames_keeps env sites unames all_results bios_cache all' bios'
    (h : str) :
  (scan_usernames env sites unames all_results bios_cache).1
  = Ok (all', bios') ->
  h ∉ unames -> all' !! h = all_results !! h.
Proof.
  revert all_results bios_cache.
  induction unames as [|u unames IH]; intros all_results bios_cache; simpl.
  { by intros [= <- <-]. }
  destruct (sweep env sites u bios_cache) as [[[r b]|e] tr]; [|done].
  specialize (IH (<[u:=r]> all_results) b).
  destruct (scan_usernames env sites unames _ b) as [out tr'].
  simpl in *. intros -> [Hne Hnot]%not_elem_of_cons.
  rewrite (IH eq_refl Hnot). by rewrite lookup_insert_ne.
Qed.

(** The loop over the usernames stores, for each username, the results its
    sweep collected, and a bio only after a sweep that found the site of
    x.com. *)
Lemma scan_usernames_exact env sites unames all_results bios_cache all' bios' :
  (scan_usernames env sites unames all_results bios_cache).1
  = Ok (all', bios') ->
  (forall h, h ∈ unames ->
     exists results x,
       (sweep_collected env sites h).1 = Ok (results, x)
       /\ all' !! h = Some results)
  /\ (forall h bio, bios' !! h = Some bio ->
        bios_cache !! h = Some bio
        \/ (h ∈ unames /\ bio <> []
            /\ (fetch_x_bio (x_http env) h).1 = Some bio
            /\ exists results,
                 (sweep_collected env sites h).1 = Ok (results, true))).
Proof.
  revert all_results bios_cache.
  induction unames as [|uname rest IH]; intros all_results bios_cache; simpl.
  { intros [= <- <-]. split; [by intros h ?%elem_of_nil | auto]. }
  rewrite sweep_unfold.
  destruct (sweep_collected env sites uname).1 as [[results x]|e] eqn:Hcol;
    [|done].
  simpl.
  specialize (IH (<[uname:=results]> all_results)
                 (enrich env uname x bios_cache).1).
  destruct (scan_usernames env sites rest _ _) as [out tr'] eqn:Hscan.
  simpl in *. intros ->. destruct (IH eq_refl) as [Hres Hbio]. split.
  - intros h Hh. destruct (decide (h ∈ rest)) as [Hrest|Hrest]; [eauto|].
    apply elem_of_cons in Hh as [->|?]; [|done].
    exists results, x. split; [done|].
    assert (all' !! uname = <[uname:=results]> all_results !! uname) as ->.
    { eapply scan_usernames_keeps; [by rewrite Hscan | done]. }
    by rewrite lookup_insert_eq.
  - intros h bio Hh. destruct (Hbio h bio Hh) as [Hold|Hnew].
    2: { right. destruct Hnew as (? & ? & ? & ?).
         split_and!; [by right | done..]. }
    unfold enrich in Hold. destruct x; [|by left].
    destruct (fetch_x_bio (x_http env) uname) as [[[|c b]|] evs] eqn:Hfetch;
      simpl in Hold; [by left| |by left].
    destruct (decide (uname = h)) as [->|Hne];
      [|rewrite lookup_insert_ne in Hold by done; by left].
    rewrite lookup_insert_eq in Hold. injection Hold as <-.
    right. split_and!; [by left | done | by rewrite Hfetch | eauto].
Qed.

(** *** The usernames of a run *)





Lemma elem_of_slice_to {A} (l : list A) stop x : x ∈ slice_to l stop -> x ∈ l.
Proof.
  assert (forall n, x ∈ take n l -> x ∈ l) as Htake.
  { intros n Hin. rewrite <- (take_drop n l). apply elem_of_app. by left. }
  unfold slice_to. destruct (stop <? 0); apply Htake.
Qed.


Lemma included_sites_spec args sites_all name site_data :
  included_sites args sites_all !! name = Some site_data <->
  sites_all !! name = Some site_data
  /\ (site_skip site_data = false \/ include_skipped args = true).
Proof.
  unfold included_sites. rewrite map_lookup_filter_Some. simpl.
  destruct (site_skip site_data), (include_skipped args); simpl; intuition.
Qed.



(** *** The run *)

Lemma run_scan_unfold env args username sites_all :
  load_sites (sites_file env) = Ok sites_all ->
  run_scan env args username
  = match str_lower (strip username) with
    | [] => Returns (Raise ValueError) []
    | _ :: _ =>
        if concurrency args <? 0 then Returns (Raise ValueError) []
        else if concurrency args =? 0 then
          scan_blocked env (included_sites args sites_all)
            (usernames_to_check env args (str_lower (strip username))) ∅
        else
          returns
            (scan_usernames env (included_sites args sites_all)
               (usernames_to_check env args (str_lower (strip username))) ∅ ∅)
    end.
Proof. intros Hload. unfold run_scan. by rewrite Hload. Qed.


Lemma first_raised_Some (tasks : list Task) site_name e evs :
  first_raised tasks = Some (site_name, e, evs) ->
  (site_name, (Raise e, evs)) ∈ tasks.
Proof.
  induction tasks as [|[name [[r|e'] evs']] rest IH]; simpl; [done| |].
  - intros Hf. right. auto.
  - intros [= -> -> ->]. by left.
Qed.


Lemma first_raised_is_Some (tasks : list Task) (t : Task) e :
  t ∈ tasks -> t.2.1 = Raise e -> is_Some (first_raised tasks).
Proof.
  induction tasks as [|[name [[r|e'] evs']] rest IH]; simpl.
  - by intros ?%elem_of_nil.
  - intros [->|Hin]%elem_of_cons Ht; [done|auto].
  - eauto.
Qed.



Lemma scan_blocked_events env sites unames all_results :
  (forall u l, as_completed env u l ≡ₚ l) ->
  Forall (scan_event_ok env sites unames)
         (run_events (scan_blocked env sites unames all_results)).
Proof.
  intros Hperm. revert all_results.
  induction unames as [|uname rest IH]; intros all_results; simpl;
    [constructor|].
  destruct (as_completed env uname (make_tasks env sites uname))
    as [|t tasks] eqn:Htasks.
  - eapply Forall_impl; [apply IH|]. intros ev.
    apply scan_event_ok_mono. intros u ?. by right.
  - destruct (first_raised (t :: tasks)) as [[[name e] evs]|] eqn:Hfirst;
      [|constructor].
    apply first_raised_Some in Hfirst. rewrite <- Htasks, Hperm in Hfirst.
    apply make_tasks_elem in Hfirst as (sd & Hsd & Hev). simpl in *.
    constructor; [|constructor]. split; [by left|].
    exists sd. split; [done|]. by rewrite <- Hev.
Qed.


(** Whatever the semaphore, a task whose url cannot be built ends the run
    in the sweep of the first username. *)
Lemma scan_blocked_raises env sites h rest all_results name site_data e :
  (forall l, as_completed env h l ≡ₚ l) ->
  sites !! name = Some site_data ->
  build_url site_data h = Raise e ->
  exists e' events,
    scan_blocked env sites (h :: rest) all_results = Returns (Raise e') events.
Proof.
  intros Hperm Hsd Hurl. simpl.
  assert ((name, check_username (http env name h) name site_data h)
          ∈ as_completed env h (make_tasks env sites h)) as Hin.
  { rewrite Hperm. unfold make_tasks. apply list_elem_of_fmap.
    exists (name, site_data). split; [done|]. by apply elem_of_map_to_list. }
  destruct (as_completed env h (make_tasks env sites h)) as [|t tasks] eqn:Ht.
  { by apply elem_of_nil in Hin. }
  destruct (first_raised_is_Some _ _ e Hin) as [[[n e'] evs] ->].
  { by rewrite (check_username_raise _ _ _ _ _ Hurl). }
  eauto.
Qed.

Lemma run_scan_events_ok env args username sites_all :
  (forall u l, as_completed env u l ≡ₚ l) ->
  load_sites (sites_file env) = Ok sites_all ->
  Forall (scan_event_ok env (included_sites args sites_all)
            (usernames_to_check env args (str_lower (strip username))))
         (run_events (run_scan env args username)).
Proof.
  intros Hperm Hload. rewrite (run_scan_unfold env args username _ Hload).
  destruct (str_lower (strip username)) as [|c base]; [constructor|].
  destruct (_ <? _); [constructor|].
  destruct (_ =? _); [by apply scan_blocked_events|].
  by apply scan_usernames_events_ok.
Qed.





End Scan.

(** ** More on the response classifier *)

Section Classifier_more.
Context `{PyRuntime}.

Lemma status_in_false status codes :
  status_in status codes = false <-> ~ In status codes.
Proof.
  rewrite <- status_in_spec. by destruct (status_in status codes).
Qed.

(** A verdict exists is only ever given to a response with status 200. *)
Lemma interpret_response_exists_200 site_name site_data url resp s u :
  interpret_response site_name site_data url resp = Ok (s, Some true, u) ->
  status resp = 200.
Proof.
  unfold interpret_response. intros Hres.
  destruct (status_in _ [404; 410]); [done|].
  destruct (looks_like_bad_redirect _ _); [done|].
  destruct (Z.eqb_spec (status resp) 200); [done|].
  by destruct (status_in _ _).
Qed.

(** X1: the classifier answers exists only for a response with status 200
    that is no bad redirect, of a profile with at least one of the two body
    patterns, whose text was read, is not matched by the not-found pattern
    and is matched by the must-contain pattern when there is one. *)
Theorem interpret_response_exists_inv site_name site_data url resp s u :
  interpret_response site_name site_data url resp = Ok (s, Exists_, u) ->
  status resp = 200
  /\ looks_like_bad_redirect site_data resp = false
  /\ (_not_found_re site_data <> None \/ _must_re site_data <> None)
  /\ exists text,
       read_limited_text resp 120000 = Ok text
       /\ (forall re, _not_found_re site_data = Some re ->
             search re text = false)
       /\ (forall re, _must_re site_data = Some re -> search re text = true).
Proof.
  unfold interpret_response, Exists_. intros Hres.
  destruct (status_in _ [404; 410]); [done|].
  destruct (looks_like_bad_redirect _ _); [done|].
  destruct (Z.eqb_spec (status resp) 200) as [Hst|];
    [|by destruct (status_in _ _)].
  split; [done|]. split; [done|].
  destruct (_not_found_re site_data) as [nfre|],
           (_must_re site_data) as [mre|]; simpl in Hres; try done.
  all: split; [auto|].
  all: destruct (read_limited_text resp 120000) as [text|e]; [|done].
  all: simpl in Hres; exists text; split; [done|].
  - destruct (search nfre text) eqn:Hnf; [done|].
    destruct (search mre text) eqn:Hm; [|done].
    split; by intros re [= <-].
  - destruct (search nfre text) eqn:Hnf; [done|].
    split; [by intros re [= <-] | done].
  - destruct (search mre text) eqn:Hm; [|done].
    split; [done | by intros re [= <-]].
Qed.

(** X2: a status other than 200, 404 and 410 is uncertain, for every
    profile and every response: the classifier returns, and it never says
    exists or not found. *)
Theorem interpret_response_other_status site_name site_data url resp :
  status resp <> 200 -> status resp <> 404 -> status resp <> 410 ->
  interpret_response site_name site_data url resp
  = Ok (site_name, Uncertain, url).
Proof.
  intros H200 H404 H410. unfold interpret_response.
  assert (status_in (status resp) [404; 410] = false) as ->.
  { apply status_in_false. simpl. intuition. }
  destruct (looks_like_bad_redirect _ _); [done|].
  destruct (Z.eqb_spec (status resp) 200); [done|].
  by destruct (status_in _ _).
Qed.

(** X3: the classifier raises exactly when it has to read the body and the
    read raises: the status is 200, there is no bad redirect, one of the two
    body patterns is set, and [read_limited_text] raises that exception.
    In every other case the body plays no part: the classifier returns the
    same for the same response with any other body stream, failing or
    not. *)
Theorem interpret_response_raise_iff site_name site_data url resp :
  (forall e,
     interpret_response site_name site_data url resp = Raise e <->
     status resp = 200
     /\ looks_like_bad_redirect site_data resp = false
     /\ (_not_found_re site_data <> None \/ _must_re site_data <> None)
     /\ read_limited_text resp 120000 = Raise e)
  /\ (~ (status resp = 200
         /\ looks_like_bad_redirect site_data resp = false
         /\ (_not_found_re site_data <> None \/ _must_re site_data <> None)) ->
      forall body err,
        interpret_response site_name site_data url (with_body resp body err)
        = interpret_response site_name site_data url resp).
Proof.
  split.
  - intros e. unfold interpret_response. split.
    + intros Hres.
      destruct (status_in _ [404; 410]); [done|].
      destruct (looks_like_bad_redirect _ _); [done|].
      destruct (Z.eqb_spec (status resp) 200) as [Hst|];
        [|by destruct (status_in _ _)].
      split; [done|]. split; [done|].
      destruct (_not_found_re site_data) as [nfre|],
               (_must_re site_data) as [mre|]; simpl in Hres; try done.
      all: split; [auto|].
      all: destruct (read_limited_text resp 120000) as [text|e']; simpl in Hres.
      all: try congruence.
      all: repeat (match type of Hres with
                   | context [if ?b then _ else _] => destruct b
                   end; try discriminate).
    + intros (Hst & Hbad & Hpat & Hread). rewrite Hst, Hbad, Hread. simpl.
      destruct (_not_found_re site_data), (_must_re site_data); simpl;
        try done.
      by destruct Hpat.
  - intros Hnot body err. unfold interpret_response.
    change (status (with_body resp body err)) with (status resp).
    change (looks_like_bad_redirect site_data (with_body resp body err))
      with (looks_like_bad_redirect site_data resp).
    destruct (status_in _ [404; 410]); [done|].
    destruct (looks_like_bad_redirect _ _) eqn:Hbad; [done|].
    destruct (Z.eqb_spec (status resp) 200) as [Hst|]; [|done].
    destruct (_not_found_re site_data) as [nfre|] eqn:Hnf,
             (_must_re site_data) as [mre|] eqn:Hmust; simpl; try done.
    all: destruct Hnot; split_and!; auto.
Qed.

(** X4: a verdict not found comes from a status 404 or 410, or from a 200
    response that is no bad redirect and whose text the not-found pattern
    matches. *)
Theorem interpret_response_not_found_inv site_name site_data url resp s u :
  interpret_response site_name site_data url resp = Ok (s, NotFound, u) ->
  status resp = 404 \/ status resp = 410
  \/ (status resp = 200
      /\ looks_like_bad_redirect site_data resp = false
      /\ exists re text,
           _not_found_re site_data = Some re
           /\ read_limited_text resp 120000 = Ok text
           /\ search re text = true).
Proof.
  unfold interpret_response, NotFound. intros Hres.
  destruct (status_in _ [404; 410]) eqn:Hhard.
  { apply status_in_spec in Hhard. simpl in Hhard. intuition. }
  clear Hhard.
  destruct (looks_like_bad_redirect _ _); [done|].
  destruct (Z.eqb_spec (status resp) 200) as [Hst|];
    [|by destruct (status_in _ _)].
  right. right. split; [done|]. split; [done|].
  destruct (is_set _ || is_set _); [|done].
  destruct (read_limited_text resp 120000) as [text|e']; [|done].
  simpl in Hres.
  destruct (_not_found_re site_data) as [nfre|].
  - destruct (search nfre text) eqn:Hnf; [by exists nfre, text|].
    destruct (_must_re site_data) as [mre|]; [|done].
    by destruct (search mre text).
  - destruct (_must_re site_data) as [mre|]; [|done].
    by destruct (search mre text).
Qed.

Lemma read_chunks_under stream err limit_chars chunks read :
  read + Z.of_nat (length (concat (bytes_decode <$> stream))) < limit_chars ->
  read_chunks stream err limit_chars chunks read
  = match err with
    | Some e => Raise e
    | None => Ok (chunks ++ (bytes_decode <$> stream))
    end.
Proof.
  revert chunks read. induction stream as [|chunk rest IH];
    intros chunks read Hlt.
  { simpl. by rewrite app_nil_r. }
  rewrite fmap_cons in Hlt |- *. cbn [concat] in Hlt.
  rewrite length_app in Hlt. cbn [read_chunks].
  destruct (Z.leb_spec limit_chars
              (read + Z.of_nat (length (bytes_decode chunk)))); [lia|].
  rewrite IH by lia. destruct err; [done|]. by rewrite <- app_assoc.
Qed.

Lemma read_chunks_reached stream err limit_chars chunks read :
  read = Z.of_nat (length (concat chunks)) ->
  read < limit_chars ->
  limit_chars
  <= read + Z.of_nat (length (concat (bytes_decode <$> stream))) ->
  exists out,
    read_chunks stream err limit_chars chunks read = Ok out
    /\ limit_chars <= Z.of_nat (length (concat out)).
Proof.
  revert chunks read. induction stream as [|chunk rest IH];
    intros chunks read Hread Hlt Hle; [simpl in *; lia|].
  rewrite fmap_cons in Hle. cbn [concat] in Hle.
  rewrite length_app in Hle. cbn [read_chunks].
  assert (length (concat (chunks ++ [bytes_decode chunk]))
          = (length (concat chunks) + length (bytes_decode chunk))%nat)
    as Hlen.
  { rewrite concat_app, length_app. simpl. by rewrite app_nil_r. }
  destruct (Z.leb_spec limit_chars
              (read + Z.of_nat (length (bytes_decode chunk)))).
  - eexists. split; [done|]. rewrite Hlen. lia.
  - apply IH; [rewrite Hlen; lia | lia | lia].
Qed.

(** X5: a body whose decoded text is shorter than the limit is read to its
    end: the text is the whole body, or the read raises what the stream
    raises at its end. *)
Theorem read_limited_text_under_limit resp limit_chars :
  Z.of_nat (length (decoded_body resp)) < limit_chars ->
  read_limited_text resp limit_chars
  = match content_error resp with
    | Some e => Raise e
    | None => Ok (decoded_body resp)
    end.
Proof.
  intros Hlt. unfold read_limited_text, decoded_body in *.
  rewrite read_chunks_under by (simpl; lia).
  by destruct (content_error resp).
Qed.

(** X6: a body whose decoded text reaches the limit is never read to its
    end: the read returns a text of at least the limit, whatever the stream
    would raise after its chunks. *)
Theorem read_limited_text_stops_at_limit resp limit_chars :
  0 < limit_chars ->
  limit_chars <= Z.of_nat (length (decoded_body resp)) ->
  exists text,
    read_limited_text resp limit_chars = Ok text
    /\ limit_chars <= Z.of_nat (length text).
Proof.
  intros Hpos Hle. unfold read_limited_text, decoded_body in *.
  destruct (read_chunks_reached (content resp) (content_error resp)
              limit_chars [] 0) as (out & -> & Hout); [done | lia | lia|].
  simpl. eauto.
Qed.

End Classifier_more.

(** ** More on the probe executor *)

Section Executor_more.
Context `{PyRuntime}.

(** The three iterations of the loop of [check_username], unfolded. *)
Lemma check_username_cases net site_name site_data username url :
  build_url site_data username = Ok url ->
  let method := str_upper (default (lit "HEAD") (site_method site_data)) in
  let body := attempt_body net site_name site_data url method in
  check_username net site_name site_data username
  = match (body 0%nat).1 with
    | Ok r => (Ok r, (body 0%nat).2)
    | Raise _ =>
        match (body 1%nat).1 with
        | Ok r => (Ok r, (body 0%nat).2 ++ Sleep (1 # 4) :: (body 1%nat).2)
        | Raise _ =>
            (Ok match (body 2%nat).1 with
                | Ok r => r
                | Raise _ => (site_name, None, url)
                end,
             (body 0%nat).2 ++ Sleep (1 # 4) :: (body 1%nat).2
             ++ Sleep (1 # 2) :: (body 2%nat).2)
        end
    end.
Proof.
  intros Hurl method body. unfold check_username. rewrite Hurl. fold method.
  change (seq 0 3) with [0; 1; 2]%nat. subst body.
  destruct (attempt_body net site_name site_data url method 0).1
    as [r0|e0] eqn:H0.
  { by rewrite (retry_loop_first_ok _ _ _ _ _ _ _ _ H0). }
  rewrite (retry_loop_first_raise _ _ _ _ _ _ _ _ H0).
  destruct (attempt_body net site_name site_data url method 1).1
    as [r1|e1] eqn:H1.
  { rewrite (retry_loop_first_ok _ _ _ _ _ _ _ _ H1). simpl.
    by rewrite backoff_0. }
  rewrite (retry_loop_first_raise _ _ _ _ _ _ _ _ H1).
  destruct (attempt_body net site_name site_data url method 2).1
    as [r2|e2] eqn:H2.
  { rewrite (retry_loop_first_ok _ _ _ _ _ _ _ _ H2). simpl.
    by rewrite backoff_0, backoff_1. }
  rewrite (retry_loop_first_raise _ _ _ _ _ _ _ _ H2). simpl.
  by rewrite backoff_0, backoff_1.
Qed.

(** An attempt that says exists saw a response with status 200. *)
Lemma attempt_body_exists net site_name site_data url method attempt s u :
  (attempt_body net site_name site_data url method attempt).1
  = Ok (s, Some true, u) ->
  exists m resp,
    net attempt m url = Ok resp /\ status resp = 200
    /\ Request m url
       ∈ (attempt_body net site_name site_data url method attempt).2.
Proof.
  unfold attempt_body.
  destruct (net attempt method url) as [resp|e] eqn:Hresp; [|done].
  destruct (str_eqb _ _ && _).
  - destruct (net attempt (lit "GET") url) as [resp2|e] eqn:Hresp2; [|done].
    simpl. intros Hex%interpret_response_exists_200.
    exists (lit "GET"), resp2. split_and!; [done..|]. set_solver.
  - simpl. intros Hex%interpret_response_exists_200.
    exists method, resp. split_and!; [done..|]. set_solver.
Qed.

(** X7: whatever the network does, a probe whose url can be built returns
    the name of its site, a verdict and that url: no failure of a request or
    of a read leaves it as an exception.  A probe whose url cannot be built
    raises what the construction raises, before any request. *)
Theorem check_username_total net site_name site_data username :
  match build_url site_data username with
  | Ok url =>
      exists verdict evs,
        check_username net site_name site_data username
        = (Ok (site_name, verdict, url), evs)
  | Raise e =>
      check_username net site_name site_data username = (Raise e, [])
  end.
Proof.
  destruct (build_url site_data username) as [url|e] eqn:Hurl.
  - by apply check_username_shape.
  - by apply check_username_raise.
Qed.

(** X8: a probe issues between one and six requests, all of them to the url
    it built, each with the configured method or GET, and it sleeps at most
    twice, first 0.25 s and then 0.5 s. *)
Theorem check_username_bounded net site_name site_data username url :
  build_url site_data username = Ok url ->
  let method := str_upper (default (lit "HEAD") (site_method site_data)) in
  let evs := (check_username net site_name site_data username).2 in
  Forall (fun r : str * str =>
            r.2 = url /\ (r.1 = method \/ r.1 = lit "GET"))
         (event_requests evs)
  /\ (1 <= length (event_requests evs) <= 6)%nat
  /\ exists k, (k <= 2)%nat /\ event_sleeps evs = take k [1 # 4; 1 # 2].
Proof.
  intros Hurl method evs. subst evs.
  rewrite (check_username_cases _ _ _ _ _ Hurl). fold method.
  destruct (attempt_body_events net site_name site_data url method 0)
    as [E0|E0];
  destruct (attempt_body_events net site_name site_data url method 1)
    as [E1|E1];
  destruct (attempt_body_events net site_name site_data url method 2)
    as [E2|E2].
  all: destruct (attempt_body net site_name site_data url method 0).1;
    [|destruct (attempt_body net site_name site_data url method 1).1].
  all: cbn [snd]; rewrite ?E0, ?E1, ?E2; simpl.
  all: split; [repeat (constructor; [simpl; auto|]); constructor|].
  all: split; [lia|].
  all: first [by exists 0%nat; split; [lia|]
             | by exists 1%nat; split; [lia|]
             | by exists 2%nat; split; [lia|]].
Qed.

(** X9: the first attempt that returns decides the probe: when the attempts
    before attempt [k] raise and attempt [k] returns a result, the probe
    returns that result, after exactly [k] sleeps. *)
Theorem check_username_retry_recovers net site_name site_data username url
    k res :
  build_url site_data username = Ok url ->
  let method := str_upper (default (lit "HEAD") (site_method site_data)) in
  let body := attempt_body net site_name site_data url method in
  (k < 3)%nat ->
  (forall j, (j < k)%nat -> exists e, (body j).1 = Raise e) ->
  (body k).1 = Ok res ->
  (check_username net site_name site_data username).1 = Ok res
  /\ event_sleeps (check_username net site_name site_data username).2
     = take k [1 # 4; 1 # 2].
Proof.
  intros Hurl method body Hk Hfail Hok.
  rewrite (check_username_cases _ _ _ _ _ Hurl). fold method body.
  assert (forall a, event_sleeps (body a).2 = []) as Hnone.
  { intros a. subst body.
    by destruct (attempt_body_events net site_name site_data url method a)
      as [-> | ->]. }
  unfold event_sleeps in *.
  destruct k as [|[|[|k]]]; [| | |lia].
  - rewrite Hok. simpl. by rewrite Hnone.
  - destruct (Hfail 0%nat ltac:(lia)) as [e0 ->]. rewrite Hok. simpl.
    rewrite omap_app, Hnone. simpl. by rewrite Hnone.
  - destruct (Hfail 0%nat ltac:(lia)) as [e0 ->].
    destruct (Hfail 1%nat ltac:(lia)) as [e1 ->]. rewrite Hok. simpl.
    rewrite omap_app, Hnone. simpl. rewrite omap_app, Hnone. simpl.
    by rewrite Hnone.
Qed.

(** X10: a probe says exists only if one of its requests was answered with
    status 200: no sequence of failures or of other statuses gives
    exists. *)
Theorem check_username_exists_needs_200 net site_name site_data username
    s u evs :
  check_username net site_name site_data username
  = (Ok (s, Exists_, u), evs) ->
  exists url attempt m resp,
    build_url site_data username = Ok url
    /\ (attempt < 3)%nat
    /\ net attempt m url = Ok resp
    /\ status resp = 200
    /\ Request m url ∈ evs.
Proof.
  unfold Exists_.
  destruct (build_url site_data username) as [url|e] eqn:Hurl;
    [|by rewrite (check_username_raise _ _ _ _ _ Hurl)].
  rewrite (check_username_cases _ _ _ _ _ Hurl).
  set (body := attempt_body net site_name site_data url _).
  intros Heq. exists url.
  destruct (body 0%nat).1 as [r0|e0] eqn:H0.
  { injection Heq as -> <-.
    apply attempt_body_exists in H0 as (m & resp & ? & ? & ?).
    exists 0%nat, m, resp. split_and!; [done|lia|done..]. }
  destruct (body 1%nat).1 as [r1|e1] eqn:H1.
  { injection Heq as -> <-.
    apply attempt_body_exists in H1 as (m & resp & ? & ? & ?).
    exists 1%nat, m, resp. split_and!; [done|lia|done..|]. set_solver. }
  destruct (body 2%nat).1 as [r2|e2] eqn:H2; [|done].
  injection Heq as -> <-.
  apply attempt_body_exists in H2 as (m & resp & ? & ? & ?).
  exists 2%nat, m, resp. split_and!; [done|lia|done..|]. set_solver.
Qed.

End Executor_more.

(** ** More on the biography *)

Section Biography_more.
Context `{PyRuntime}.

(** X11: the texts that [strip_tags] leaves unchanged are exactly the texts
    in which the tag pattern matches nowhere; its result is such a text, so
    stripping twice is stripping once. *)
Theorem strip_tags_fixpoint s :
  (strip_tags s = s <-> no_tag s)
  /\ strip_tags (strip_tags s) = strip_tags s.
Proof.
  unfold strip_tags. split.
  - split; [|apply sub_tags_fixpoint].
    intros <-. apply sub_tags_no_tag.
  - apply sub_tags_fixpoint, sub_tags_no_tag.
Qed.

(** X12: [strip_tags] only deletes: what it returns is a subsequence of the
    text, and a text without the character [<], or without the character
    [>], is returned as it is. *)
Theorem strip_tags_only_deletes s :
  sublist (strip_tags s) s
  /\ (60%N ∉ s \/ 62%N ∉ s -> strip_tags s = s).
Proof.
  split; [apply sub_tags_sublist|].
  intros Hnone. apply sub_tags_fixpoint. intros pre rest ->.
  apply tag_rest_len_None. destruct Hnone as [Hlt|Hgt].
  - exfalso. apply Hlt. set_solver.
  - right. right. intros Hin. apply Hgt. set_solver.
Qed.

(** A text in which every white-space character is a space and no two of
    them are adjacent. *)
Lemma sub_spaces_clean_id (t : str) :
  (forall pre a b post, t = pre ++ a :: b :: post ->
     isspace a = true -> isspace b = false) ->
  (forall c, c ∈ t -> isspace c = true -> c = 32%N) ->
  sub_spaces false t = t
  /\ ((forall c u, t = c :: u -> isspace c = false) -> sub_spaces true t = t).
Proof.
  induction t as [|c t IH]; [done|]. intros Hadj Honly.
  destruct IH as [IHf IHt].
  { intros pre a b post ->. by apply (Hadj (c :: pre) a b post). }
  { intros d Hd. apply Honly. by right. }
  split.
  - simpl. destruct (isspace c) eqn:Hc; [|by rewrite IHf].
    rewrite (Honly c) by (by left || done). f_equal. apply IHt.
    intros d u ->. by apply (Hadj [] c d u).
  - intros Hhead. simpl. rewrite (Hhead c t eq_refl). by rewrite IHf.
Qed.

Lemma sub_spaces_filter in_run s :
  filter (fun c => isspace c = false) (sub_spaces in_run s)
  = filter (fun c => isspace c = false) s.
Proof.
  revert in_run. induction s as [|c s IH]; intros in_run; simpl; [done|].
  destruct (isspace c) eqn:Hc; [destruct in_run|].
  - rewrite IH. by rewrite filter_cons_False by congruence.
  - rewrite filter_cons_False by done.
    rewrite IH. by rewrite filter_cons_False by congruence.
  - rewrite !filter_cons_True by done. by rewrite IH.
Qed.

Lemma sub_spaces_length in_run s :
  (length (sub_spaces in_run s) <= length s)%nat.
Proof.
  revert in_run. induction s as [|c s IH]; intros in_run; simpl; [done|].
  destruct (isspace c); [destruct in_run|]; simpl.
  - pose proof (IH true). lia.
  - pose proof (IH true). lia.
  - pose proof (IH false). lia.
Qed.

(** X13: [collapse_spaces] changes white space only: the characters that
    are not white space are kept, in order; the text never grows; and a
    collapsed text collapses to itself. *)
Theorem collapse_spaces_spec s :
  filter (fun c => isspace c = false) (collapse_spaces s)
  = filter (fun c => isspace c = false) s
  /\ (length (collapse_spaces s) <= length s)%nat
  /\ collapse_spaces (collapse_spaces s) = collapse_spaces s.
Proof.
  unfold collapse_spaces.
  split_and!; [apply sub_spaces_filter | apply sub_spaces_length |].
  apply sub_spaces_clean_id.
  - intros pre a b post. apply sub_spaces_adjacent.
  - intros c. apply sub_spaces_only_space.
Qed.

(** X14: a bio, from either pattern, neither begins nor ends with white
    space. *)
Theorem bio_has_no_outer_space group1 bio :
  bio = bio_of_description group1 \/ bio = bio_of_meta group1 ->
  (forall c u, bio = c :: u -> isspace c = false)
  /\ (forall u c, bio = u ++ [c] -> isspace c = false).
Proof.
  assert (forall x,
            (forall c u, clip_bio (collapse_spaces (strip x)) = c :: u ->
               isspace c = false)
            /\ (forall u c, clip_bio (collapse_spaces (strip x)) = u ++ [c] ->
                  isspace c = false)) as Hends.
  { intros x. destruct (strip_spec x) as (_ & Hhead & Hlast & _).
    apply clip_bio_ends; by apply sub_spaces_ends. }
  intros [-> | ->]; apply Hends.
Qed.

(** X15: [fetch_x_bio] issues exactly one request, a GET of the page of the
    username on x.com, and it returns a bio only when that request was
    answered with status 200, the page was read, and one of the two
    patterns matched: the bio is then made from the UserDescription block
    if it matched, else from the meta description, and has at most 83
    characters. *)
Theorem fetch_x_bio_inv x_net username :
  (fetch_x_bio x_net username).2 = [Request (lit "GET") (x_url username)]
  /\ forall bio,
       (fetch_x_bio x_net username).1 = Some bio ->
       exists resp text,
         x_net (x_url username) = Ok resp
         /\ status resp = 200
         /\ resp_text resp = Ok text
         /\ ((exists g, search_user_description text = Some g
                        /\ bio = bio_of_description g)
             \/ (search_user_description text = None
                 /\ exists g, search_meta_description text = Some g
                              /\ bio = bio_of_meta g))
         /\ (length bio <= 83)%nat.
Proof.
  unfold fetch_x_bio. split.
  { by destruct (x_net (x_url username) ≫= bio_of_response). }
  intros bio.
  destruct (x_net (x_url username)) as [resp|e] eqn:Hresp; [|done].
  simpl. unfold bio_of_response.
  destruct (Z.eqb_spec (status resp) 200) as [Hst|]; [|done]. simpl.
  destruct (resp_text resp) as [text|e] eqn:Htext; [|done]. simpl.
  destruct (search_user_description text) as [g|] eqn:Hdesc.
  - simpl. intros [= <-]. exists resp, text. split_and!; [done..| |].
    + left. eauto.
    + apply clip_bio_spec.
  - destruct (search_meta_description text) as [g|] eqn:Hmeta; [|done].
    simpl. intros [= <-]. exists resp, text. split_and!; [done..| |].
    + right. eauto.
    + apply clip_bio_spec.
Qed.

End Biography_more.

(** ** More on the username variations *)

Section Variations_more.
Context `{PyRuntime}.

(** A string is one of those of a literal list. *)
Ltac in_literal :=
  repeat first [apply list_elem_of_here | apply list_elem_of_further].

Lemma variant_shape_length suffixes (b h : str) :
  variant_shape suffixes b h -> (length b <= length h)%nat.
Proof.
  intros [-> | [(suffix & sep & _ & _ & ->) | [(_ & sep & _ & ->)
         | (prefix & sep & _ & _ & ->)]]].
  - done.
  - rewrite length_app. lia.
  - rewrite !length_app, length_take, length_drop. lia.
  - rewrite !length_app. lia.
Qed.

Lemma add_suffixes_shape (all : list str) (b : str) (max_variants : Z)
    (suffixes : list str) (variations : gset str) :
  (forall suffix : str, suffix ∈ suffixes -> suffix ∈ all) ->
  (forall h : str, h ∈ variations -> variant_shape all b h) ->
  forall h : str, h ∈ add_suffixes b max_variants suffixes variations ->
                  variant_shape all b h.
Proof.
  revert variations.
  induction suffixes as [|suffix rest IH]; intros variations Hsub Hall; simpl;
    [done|].
  destruct (_ >=? _); [done|]. apply IH.
  { intros s Hs. apply Hsub. by right. }
  assert (suffix ∈ all) as Hin by (apply Hsub; by left).
  intros h. rewrite !elem_of_union, !elem_of_singleton.
  intros [[[?| ->]| ->]| ->]; [auto|right; left..].
  - exists suffix, []. split_and!; [done | in_literal | done].
  - exists suffix, (lit "_"). split_and!; [done | in_literal | done].
  - exists suffix, (lit "."). split_and!; [done | in_literal | done].
Qed.

Lemma add_splits_shape (all : list str) (b : str) (variations : gset str) :
  (forall h : str, h ∈ variations -> variant_shape all b h) ->
  forall h : str, h ∈ add_splits b variations -> variant_shape all b h.
Proof.
  intros Hall h. unfold add_splits.
  destruct (Nat.ltb_spec 4 (length b)); [|auto].
  rewrite !elem_of_union, !elem_of_singleton.
  intros [[?| ->]| ->]; [auto|right; right; left..].
  - split; [done|]. exists (lit "_"). split; [in_literal | done].
  - split; [done|]. exists (lit "."). split; [in_literal | done].
Qed.

Lemma add_prefixes_shape (all : list str) (b : str) (pre : list str)
    (variations : gset str) :
  (forall prefix : str, prefix ∈ pre -> prefix ∈ prefixes) ->
  (forall h : str, h ∈ variations -> variant_shape all b h) ->
  forall h : str, h ∈ add_prefixes b pre variations -> variant_shape all b h.
Proof.
  revert variations.
  induction pre as [|prefix rest IH]; intros variations Hsub Hall; simpl;
    [done|].
  apply IH.
  { intros p Hp. apply Hsub. by right. }
  assert (prefix ∈ prefixes) as Hin by (apply Hsub; by left).
  intros h. rewrite !elem_of_union, !elem_of_singleton.
  intros [[?| ->]| ->]; [auto|right; right; right..].
  - exists prefix, []. split_and!; [done | in_literal | done].
  - exists prefix, (lit "_"). split_and!; [done | in_literal | done].
Qed.

Lemma slice_to_sublist {A} (l : list A) stop : sublist (slice_to l stop) l.
Proof. unfold slice_to. destruct (stop <? 0); apply sublist_take. Qed.

(** Once the set has [max_variants] elements the loop adds nothing. *)
Lemma add_suffixes_full (b : str) (max_variants : Z) (suffixes : list str)
    (variations : gset str) :
  max_variants <= Z.of_nat (size variations) ->
  add_suffixes b max_variants suffixes variations = variations.
Proof.
  intros Hfull. destruct suffixes as [|suffix rest]; [done|].
  cbn [add_suffixes].
  destruct (Z.geb_spec (Z.of_nat (size variations)) max_variants);
    [done | lia].
Qed.

(** X16: a call with a non-negative [max_variants] returns at most that
    many variations, whatever the random choices are. *)
Theorem generate_username_variations_length rand shuf base max_variants :
  0 <= max_variants ->
  Z.of_nat (length (generate_username_variations rand shuf base max_variants))
  <= max_variants.
Proof.
  intros Hmax. unfold generate_username_variations, slice_to.
  destruct (Z.ltb_spec max_variants 0); [lia|].
  rewrite length_take. lia.
Qed.

(** X17: the variations returned are distinct, none is shorter than the
    normalized base, and each is that base, the base followed by one of the
    suffixes (alone, after an underscore or after a dot), the base cut in
    the middle by an underscore or a dot (for a base of more than four
    characters), or the base after one of the prefixes (alone or with an
    underscore). *)
Theorem generate_username_variations_shapes rand shuf base max_variants :
  (forall l, shuf l ≡ₚ l) ->
  let b := str_lower (strip base) in
  let variations := generate_username_variations rand shuf base max_variants in
  NoDup variations
  /\ forall h, h ∈ variations ->
       variant_shape (all_suffixes rand) b h /\ (length b <= length h)%nat.
Proof.
  intros Hshuf b variations. subst variations.
  unfold generate_username_variations. fold b. split.
  - eapply sublist_NoDup; [|apply slice_to_sublist].
    rewrite Hshuf. apply NoDup_elements.
  - intros h Hin%elem_of_slice_to. rewrite Hshuf in Hin.
    apply elem_of_elements in Hin.
    assert (variant_shape (all_suffixes rand) b h) as Hshape.
    { revert h Hin.
      apply add_prefixes_shape; [done|]. apply add_splits_shape.
      apply add_suffixes_shape; [done|].
      intros h ->%elem_of_singleton. by left. }
    split; [done|]. by eapply variant_shape_length.
Qed.

(** X18: with [max_variants] at most 1 the loop over the suffixes stops at
    once: no variation has a suffix, and the one variation returned for
    [max_variants = 1] is the base, the base cut in the middle, or the base
    after a prefix. *)
Theorem generate_username_variations_small_max rand shuf base max_variants :
  (forall l, shuf l ≡ₚ l) ->
  max_variants <= 1 ->
  let b := str_lower (strip base) in
  forall h, h ∈ generate_username_variations rand shuf base max_variants ->
            variant_shape [] b h.
Proof.
  intros Hshuf Hmax b h. unfold generate_username_variations. fold b.
  intros Hin%elem_of_slice_to. rewrite Hshuf in Hin.
  apply elem_of_elements in Hin. revert h Hin.
  apply add_prefixes_shape; [done|]. apply add_splits_shape.
  rewrite add_suffixes_full by (rewrite size_singleton; lia).
  intros h ->%elem_of_singleton. by left.
Qed.

End Variations_more.

(** ** More on the loading of the sites *)

Section Loading_more.
Context `{PyRuntime}.

Lemma compile_opt_ok text re :
  compile_opt text = Ok re -> compiled_from text re.
Proof.
  unfold compile_opt, compiled_from.
  destruct text as [[|c p]|]; simpl; [by intros [= <-]| |by intros [= <-]].
  destruct (re_compile (c :: p)) as [r|e] eqn:Hre; [|done].
  simpl. intros [= <-]. eauto.
Qed.

Lemma compile_opt_raise text e :
  compile_opt text = Raise e <->
  exists p, text = Some p /\ p <> [] /\ re_compile p = Raise e.
Proof.
  unfold compile_opt. destruct text as [[|c p]|]; simpl.
  - split; [done|]. by intros (p & [= <-] & ? & _).
  - destruct (re_compile (c :: p)) as [r|e'] eqn:Hre; simpl.
    + split; [done|]. intros (q & [= <-] & _ & Hq). congruence.
    + split.
      * intros [= <-]. by exists (c :: p).
      * intros (q & [= <-] & _ & Hq). congruence.
  - split; [done|]. by intros (p & ? & _).
Qed.

Lemma compile_cfg_ok cfg sd :
  compile_cfg cfg = Ok sd ->
  site_url sd = site_url cfg
  /\ site_method sd = site_method cfg
  /\ site_skip sd = site_skip cfg
  /\ pattern_texts sd = pattern_texts cfg
  /\ compiled_from (not_found_regex cfg) (_not_found_re sd)
  /\ compiled_from (bad_redirect_regex cfg) (_bad_redirect_re sd)
  /\ compiled_from (must_contain_regex cfg) (_must_re sd).
Proof.
  unfold compile_cfg.
  destruct (compile_opt (not_found_regex cfg)) as [nfr|] eqn:Hnf; [|done].
  destruct (compile_opt (bad_redirect_regex cfg)) as [brr|] eqn:Hbr; [|done].
  destruct (compile_opt (must_contain_regex cfg)) as [must|] eqn:Hmust;
    [|done].
  simpl. intros [= <-]. simpl.
  split_and!; try done; by apply compile_opt_ok.
Qed.

Lemma compile_cfg_raise cfg e :
  compile_cfg cfg = Raise e ->
  exists p, Some p ∈ pattern_texts cfg /\ p <> [] /\ re_compile p = Raise e.
Proof.
  unfold compile_cfg, pattern_texts.
  destruct (compile_opt (not_found_regex cfg)) as [nfr|e1] eqn:Hnf.
  2: { simpl. intros [= <-].
       apply compile_opt_raise in Hnf as (p & Hp & ? & ?).
       exists p. rewrite <- Hp. split_and!; [by left | done..]. }
  destruct (compile_opt (bad_redirect_regex cfg)) as [brr|e2] eqn:Hbr.
  2: { simpl. intros [= <-].
       apply compile_opt_raise in Hbr as (p & Hp & ? & ?).
       exists p. rewrite <- Hp. split_and!; [by right; left | done..]. }
  destruct (compile_opt (must_contain_regex cfg)) as [must|e3] eqn:Hmust;
    [done|].
  simpl. intros [= <-].
  apply compile_opt_raise in Hmust as (p & Hp & ? & ?).
  exists p. rewrite <- Hp. split_and!; [by right; right; left | done..].
Qed.

Lemma compile_cfg_is_raise cfg p e :
  Some p ∈ pattern_texts cfg -> p <> [] -> re_compile p = Raise e ->
  exists e', compile_cfg cfg = Raise e'.
Proof.
  unfold pattern_texts, compile_cfg. intros Hin Hne Hre.
  assert (compile_opt (Some p) = Raise e) as Hp.
  { apply compile_opt_raise. by exists p. }
  destruct (compile_opt (not_found_regex cfg)) as [nfr|e1] eqn:Hnf;
    [|by eexists].
  destruct (compile_opt (bad_redirect_regex cfg)) as [brr|e2] eqn:Hbr;
    [|by eexists].
  destruct (compile_opt (must_contain_regex cfg)) as [must|e3] eqn:Hmust;
    [|by eexists].
  exfalso. repeat (apply elem_of_cons in Hin as [Hin|Hin]; [congruence|]).
  by apply elem_of_nil in Hin.
Qed.

Lemma compile_items_ok (items items' : list (str * SiteData)) :
  compile_items items = Ok items' ->
  Forall2 (fun a b => a.1 = b.1 /\ compile_cfg a.2 = Ok b.2) items items'.
Proof.
  revert items'. induction items as [|[name cfg] rest IH]; intros items';
    simpl.
  { intros [= <-]. constructor. }
  destruct (compile_cfg cfg) as [cfg'|] eqn:Hcfg; [|done]. simpl.
  destruct (compile_items rest) as [rest'|]; [|done]. simpl.
  intros [= <-]. constructor; [done | by apply IH].
Qed.

Lemma compile_items_raise (items : list (str * SiteData)) :
  (exists e, compile_items items = Raise e) <->
  exists name cfg e, (name, cfg) ∈ items /\ compile_cfg cfg = Raise e.
Proof.
  induction items as [|[name cfg] rest IH]; simpl.
  { split; [by intros [? ?] | by intros (? & ? & ? & ?%elem_of_nil & _)]. }
  destruct (compile_cfg cfg) as [cfg'|e] eqn:Hcfg; simpl.
  - destruct (compile_items rest) as [rest'|e]; simpl.
    + split; [by intros [? ?]|].
      intros (n & c & e & [[= -> ->]|Hin]%elem_of_cons & Hc); [congruence|].
      destruct IH as [_ IH]. destruct IH as [? ?]; [eauto | done].
    + split; [|eauto]. intros _.
      destruct IH as [IH _]. destruct IH as (n & c & e' & ? & ?); [eauto|].
      exists n, c, e'. split; [by right | done].
  - split; [|eauto]. intros _. exists name, cfg, e. split; [by left | done].
Qed.

Lemma compile_items_raise_first (items : list (str * SiteData)) e :
  compile_items items = Raise e ->
  exists name cfg, (name, cfg) ∈ items /\ compile_cfg cfg = Raise e.
Proof.
  induction items as [|[name cfg] rest IH]; simpl; [done|].
  destruct (compile_cfg cfg) as [cfg'|e1] eqn:Hcfg; simpl.
  - destruct (compile_items rest) as [rest'|e2]; simpl; [done|].
    intros [= <-]. destruct IH as (n & c & ? & ?); [done|].
    exists n, c. split; [by right | done].
  - intros [= <-]. exists name, cfg. split; [by left | done].
Qed.

(** X19: the catalog that [load_sites] returns has the names of the file
    and no other; each entry keeps its url, method, skip flag and pattern
    texts, and gets for each pattern text the pattern compiled from it, or
    none when the text is absent or empty. *)
Theorem load_sites_ok sites loaded :
  load_sites (JsonObject sites) = Ok loaded ->
  forall name,
    match sites !! name with
    | None => loaded !! name = None
    | Some cfg =>
        exists sd,
          loaded !! name = Some sd
          /\ site_url sd = site_url cfg
          /\ site_method sd = site_method cfg
          /\ site_skip sd = site_skip cfg
          /\ pattern_texts sd = pattern_texts cfg
          /\ compiled_from (not_found_regex cfg) (_not_found_re sd)
          /\ compiled_from (bad_redirect_regex cfg) (_bad_redirect_re sd)
          /\ compiled_from (must_contain_regex cfg) (_must_re sd)
    end.
Proof.
  unfold load_sites.
  destruct (compile_items (map_to_list sites)) as [items|] eqn:Hitems; [|done].
  simpl. intros [= <-] name.
  apply compile_items_ok in Hitems.
  assert (items.*1 = (map_to_list sites).*1) as Hnames.
  { clear -Hitems. induction Hitems as [|a b l l' [Hab _] _ IH]; [done|].
    rewrite !fmap_cons. by f_equal. }
  assert (NoDup items.*1) as Hnodup.
  { rewrite Hnames. apply NoDup_fst_map_to_list. }
  destruct (sites !! name) as [cfg|] eqn:Hname.
  - apply elem_of_map_to_list in Hname.
    assert (exists sd, (name, sd) ∈ items /\ compile_cfg cfg = Ok sd)
      as (sd & Hin & Hcfg).
    { clear -Hitems Hname.
      induction Hitems as [|[n c] [n' c'] ? ? [Hn Hc] _ IH]; simpl in *.
      { by apply elem_of_nil in Hname. }
      apply elem_of_cons in Hname as [[= <- <-]|Hname].
      - exists c'. subst n'. split; [by left | done].
      - destruct (IH Hname) as (sd & ? & ?). exists sd.
        split; [by right | done]. }
    exists sd. split; [by apply elem_of_list_to_map|].
    by apply compile_cfg_ok.
  - apply not_elem_of_list_to_map. rewrite Hnames.
    intros ((n & cfg) & -> & Hin%elem_of_map_to_list)%list_elem_of_fmap.
    simpl in Hname. congruence.
Qed.

(** X20: for a file that holds a JSON object whose entries are objects with
    text patterns, [load_sites] raises exactly when an entry has a non-empty
    pattern text that does not compile, and what it raises is what
    [re.compile] raised for such a text.  Nothing else in such a file makes
    it raise: an entry without url, or with any method, loads. *)
Theorem load_sites_raise sites :
  (forall e, load_sites (JsonObject sites) = Raise e ->
     exists name cfg p,
       sites !! name = Some cfg
       /\ Some p ∈ pattern_texts cfg /\ p <> []
       /\ re_compile p = Raise e)
  /\ (forall name cfg p e,
        sites !! name = Some cfg ->
        Some p ∈ pattern_texts cfg -> p <> [] -> re_compile p = Raise e ->
        exists e', load_sites (JsonObject sites) = Raise e')
  /\ ((forall name cfg p,
         sites !! name = Some cfg -> Some p ∈ pattern_texts cfg -> p <> [] ->
         exists r, re_compile p = Ok r) ->
      exists loaded, load_sites (JsonObject sites) = Ok loaded).
Proof.
  split_and!.
  - intros e. simpl.
    destruct (compile_items (map_to_list sites)) as [items|e'] eqn:Hitems;
      [done|].
    simpl. intros [= <-].
    apply compile_items_raise_first in Hitems as (name & cfg & Hin & Hcfg).
    apply elem_of_map_to_list in Hin.
    apply compile_cfg_raise in Hcfg as (p & ? & ? & ?).
    exists name, cfg, p. done.
  - intros name cfg p e Hname Hin Hne Hre. simpl.
    destruct (compile_cfg_is_raise cfg p e Hin Hne Hre) as [e' He'].
    destruct (proj2 (compile_items_raise (map_to_list sites))) as [e'' ->].
    { exists name, cfg, e'. split; [by apply elem_of_map_to_list | done]. }
    simpl. eauto.
  - intros Hall. simpl.
    destruct (compile_items (map_to_list sites)) as [items|e'] eqn:Hitems;
      [simpl; eauto|].
    apply compile_items_raise_first in Hitems as (name & cfg & Hin & Hcfg).
    apply elem_of_map_to_list in Hin.
    apply compile_cfg_raise in Hcfg as (p & Hp & Hne & Hre).
    destruct (Hall name cfg p Hin Hp Hne) as [r Hr]. congruence.
Qed.

End Loading_more.

(** ** More on the test for the site of x.com *)

Section X_site_more.
Context `{PyRuntime}.

Lemma startswith_spec (p s : str) :
  startswith p s = true <-> exists suf, s = p ++ suf.
Proof.
  revert s. induction p as [|a p IH]; intros s; simpl.
  { split; [eauto | done]. }
  destruct s as [|b s].
  { split; [done | by intros (? & ?)]. }
  rewrite andb_true_iff, N.eqb_eq, IH. split.
  - intros [-> (suf & ->)]. by exists suf.
  - intros (suf & [= -> ->]). eauto.
Qed.

Lemma contains_spec_aux (p s : str) :
  contains p s = true <-> exists pre suf, s = pre ++ p ++ suf.
Proof.
  induction s as [|c s IH].
  - simpl. rewrite orb_false_r, startswith_spec. split.
    + intros (suf & Hs). by exists [], suf.
    + intros (pre & suf & Hs). destruct pre; [by exists suf|done].
  - cbn [contains]. rewrite orb_true_iff, startswith_spec, IH. split.
    + intros [(suf & ->) | (pre & suf & ->)].
      * by exists [], suf.
      * by exists (c :: pre), suf.
    + intros ([|c' pre] & suf & Hs).
      * left. by exists suf.
      * right. injection Hs as -> ->. by exists pre, suf.
Qed.

(** The substring test of the program, [p in s], is true exactly when [s]
    is some text, then [p], then some text; in particular the empty text is
    in every text, and a text is in itself. *)
Lemma contains_spec (p s : str) :
  (contains p s = true <-> exists pre suf, s = pre ++ p ++ suf)
  /\ contains [] s = true
  /\ contains s s = true.
Proof.
  split_and!; [apply contains_spec_aux | |]; apply contains_spec_aux.
  - by exists [], s.
  - exists [], []. by rewrite app_nil_r.
Qed.

(** X21: a site counts as the site of x.com exactly when its name, stripped
    and lower-cased, is twitter, twitter/x or x, or when its url template,
    lower-cased, holds the text x.com/{} or twitter.com/{} anywhere (an
    entry without url counts as an empty template).  So any host that ends
    in x.com qualifies. *)
Theorem is_x_site_iff site_name site_data :
  is_x_site site_name site_data = true <->
  str_lower (strip site_name) ∈ [lit "twitter"; lit "twitter/x"; lit "x"]
  \/ exists domain pre suf,
       domain ∈ [lit "x.com/{}"; lit "twitter.com/{}"]
       /\ str_lower (default [] (site_url site_data))
          = pre ++ domain ++ suf.
Proof.
  unfold is_x_site, str_eqb.
  set (s := str_lower (strip site_name)).
  set (url := str_lower (default [] (site_url site_data))).
  rewrite !elem_of_cons, elem_of_nil.
  destruct (decide (s = lit "twitter")) as [Hs|Hs1];
    [rewrite bool_decide_eq_true_2 by done; simpl; tauto|].
  rewrite (bool_decide_eq_false_2 _ Hs1).
  destruct (decide (s = lit "twitter/x")) as [Hs|Hs2];
    [rewrite bool_decide_eq_true_2 by done; simpl; tauto|].
  rewrite (bool_decide_eq_false_2 _ Hs2).
  destruct (decide (s = lit "x")) as [Hs|Hs3];
    [rewrite bool_decide_eq_true_2 by done; simpl; tauto|].
  rewrite (bool_decide_eq_false_2 _ Hs3). cbn [orb].
  rewrite orb_true_iff, !contains_spec_aux. split.
  - intros [(pre & suf & Hu) | (pre & suf & Hu)]; right.
    + exists (lit "x.com/{}"), pre, suf. split; [by left | done].
    + exists (lit "twitter.com/{}"), pre, suf.
      split; [by right; left | done].
  - intros [[?|[?|[?|[]]]] | (domain & pre & suf & Hd & Hu)]; [done..|].
    apply elem_of_cons in Hd as [->|Hd]; [eauto|].
    apply elem_of_cons in Hd as [->|Hd]; [eauto|].
    by apply elem_of_nil in Hd.
Qed.

End X_site_more.

(** ** More on the scan orchestrator *)

Section Scan_more.
Context `{PyRuntime}.

(** X22: when the probes of a sweep are all collected, the enrichment is
    decided by the results alone: if one of them is exists for a site that
    [is_x_site] accepts, exactly one enrichment follows the probes, with its
    one GET; if none is, no enrichment is issued and the bios are left as
    they were. *)
Theorem sweep_enrichment_trigger env sites uname bios_cache results x :
  (sweep_collected env sites uname).1 = Ok (results, x) ->
  x = existsb (high_signal sites) results
  /\ (x = true ->
      (sweep env sites uname bios_cache).2
      = (sweep_collected env sites uname).2
        ++ [Enrich uname [Request (lit "GET") (x_url uname)]])
  /\ (x = false ->
      sweep env sites uname bios_cache
      = (Ok (results, bios_cache), (sweep_collected env sites uname).2)).
Proof.
  intros Hcol. rewrite sweep_unfold, Hcol.
  destruct (collect_spec sites uname
              (as_completed env uname (make_tasks env sites uname)) [] false)
    as [_ Hok].
  destruct (Hok _ _ Hcol) as (new & -> & _ & -> & _). simpl.
  split; [done|]. unfold enrich. split; intros ->.
  - destruct (fetch_x_bio (x_http env) uname) as [bio evs] eqn:Hfetch.
    pose proof (fetch_x_bio_events (x_http env) uname) as Hevs.
    rewrite Hfetch in Hevs. simpl in *. by subst evs.
  - simpl. by rewrite app_nil_r.
Qed.

(** X23: every event of a run is the probe of a site of the catalog that
    is not marked skip (or of any site when skipped ones are asked for) for
    a handle of the run, with the events of that one probe, or the single
    GET of an enrichment for a handle of the run: a skipped site is never
    probed, and nothing else is requested. *)
Theorem run_scan_events env args username sites_all :
  (forall u l, as_completed env u l ≡ₚ l) ->
  load_sites (sites_file env) = Ok sites_all ->
  let handles := usernames_to_check env args (str_lower (strip username)) in
  Forall (scan_event_ok env (included_sites args sites_all) handles)
         (run_events (run_scan env args username))
  /\ forall u site_name evs,
       Probe u site_name evs ∈ run_events (run_scan env args username) ->
       exists site_data,
         sites_all !! site_name = Some site_data
         /\ (site_skip site_data = false \/ include_skipped args = true).
Proof.
  intros Hperm Hload handles.
  assert (Forall (scan_event_ok env (included_sites args sites_all) handles)
            (run_events (run_scan env args username))) as Hall.
  { by apply run_scan_events_ok. }
  split; [done|]. intros u site_name evs Hin.
  eapply Forall_forall in Hall; [|done].
  destruct Hall as (_ & sd & Hsd & _).
  apply included_sites_spec in Hsd. eauto.
Qed.

(** X24: one included entry whose url cannot be built for the first handle
    is enough to abort the run: the run raises, and returns no result for
    any site. *)
Theorem run_scan_aborts_on_bad_entry env args username sites_all
    h rest name site_data e :
  (forall u l, as_completed env u l ≡ₚ l) ->
  load_sites (sites_file env) = Ok sites_all ->
  str_lower (strip username) <> [] ->
  usernames_to_check env args (str_lower (strip username)) = h :: rest ->
  included_sites args sites_all !! name = Some site_data ->
  build_url site_data h = Raise e ->
  exists e', run_result (run_scan env args username) = Some (Raise e').
Proof.
  intros Hperm Hload Hbase Hhandles Hsd Hurl.
  rewrite (run_scan_unfold env args username sites_all Hload), Hhandles.
  destruct (str_lower (strip username)); [done|].
  destruct (_ <? _); [simpl; eauto|].
  destruct (_ =? _).
  { destruct (scan_blocked_raises env (included_sites args sites_all) h rest
                ∅ name site_data e (Hperm h) Hsd Hurl) as (e' & events & ->).
    simpl. eauto. }
  unfold returns. simpl.
  rewrite sweep_unfold.
  destruct (collect_raise (included_sites args sites_all) h
              (as_completed env h
                 (make_tasks env (included_sites args sites_all) h))
              [] false) as [e' He'].
  { exists (name, check_username (http env name h) name site_data h).
    split.
    - rewrite Hperm. unfold make_tasks. apply list_elem_of_fmap.
      exists (name, site_data). split; [done|].
      by apply elem_of_map_to_list.
    - exists e. by rewrite (check_username_raise _ _ _ _ _ Hurl). }
  unfold sweep_collected. rewrite He'. simpl. eauto.
Qed.

(** X25: a run stores a bio for a handle only if the results it stores for
    that handle hold an exists for a site that [is_x_site] accepts; the bio
    stored is the one [fetch_x_bio] returned for that handle, and it is not
    empty. *)
Theorem run_scan_bios env args username sites_all all_results bios h bio :
  load_sites (sites_file env) = Ok sites_all ->
  run_result (run_scan env args username) = Some (Ok (all_results, bios)) ->
  bios !! h = Some bio ->
  bio <> []
  /\ (fetch_x_bio (x_http env) h).1 = Some bio
  /\ exists results,
       all_results !! h = Some results
       /\ existsb (high_signal (included_sites args sites_all)) results
          = true.
Proof.
  intros Hload. rewrite (run_scan_unfold env args username sites_all Hload).
  destruct (str_lower (strip username)) as [|c base] eqn:Hbase; [done|].
  destruct (_ <? _); [done|].
  destruct (_ =? _).
  { intros Hok Hbio. exfalso. revert Hok Hbio. clear.
    generalize (∅ : gmap str (list ProbeResult)).
    induction (usernames_to_check env args (c :: base)) as [|u unames IH];
      intros all_results0; simpl.
    - intros [= <- <-]. by rewrite lookup_empty.
    - destruct (as_completed env u _) as [|t tasks]; [apply IH|].
      by destruct (first_raised (t :: tasks)) as [[[n e] evs]|]. }
  unfold returns. simpl. intros [= Hscan] Hbio.
  destruct (scan_usernames_exact _ _ _ _ _ _ _ Hscan) as [Hres Hb].
  destruct (Hb h bio Hbio) as [Hold | (Hh & Hne & Hfetch & results & Hcol)].
  { by rewrite lookup_empty in Hold. }
  destruct (Hres h Hh) as (results' & x & Hcol' & Hall).
  rewrite Hcol in Hcol'. injection Hcol' as <- <-.
  split_and!; [done..|]. exists results. split; [done|].
  destruct (collect_spec (included_sites args sites_all) h
              (as_completed env h
                 (make_tasks env (included_sites args sites_all) h))
              [] false) as [_ Hok].
  destruct (Hok _ _ Hcol) as (new & Hnew & _ & Hx & _).
  simpl in Hnew, Hx. by subst new.
Qed.

End Scan_more.

(** ** The tables *)

Section Tables_more.
Context `{PyRuntime}.

Lemma insert_sorted_perm {A} (key : A -> str) x (l : list A) :
  insert_sorted key x l ≡ₚ x :: l.
Proof.
  induction l as [|y l IH]; simpl; [done|].
  destruct (str_ltb (key y) (key x)); [|done].
  rewrite IH. apply Permutation_swap.
Qed.

Lemma sorted_perm {A} (key : A -> str) (l : list A) : sorted key l ≡ₚ l.
Proof.
  unfold sorted. induction l as [|x l IH]; simpl; [done|].
  by rewrite insert_sorted_perm, IH.
Qed.

Lemma str_ltb_irrefl a : str_ltb a a = false.
Proof.
  induction a as [|x a IH]; simpl; [done|].
  by rewrite N.ltb_irrefl, N.eqb_refl, IH.
Qed.

Lemma str_ltb_asym a b : str_ltb a b = true -> str_ltb b a = false.
Proof.
  revert b. induction a as [|x a IH]; intros [|y b]; simpl; try done.
  rewrite orb_true_iff, andb_true_iff, N.ltb_lt, N.eqb_eq.
  intros [Hlt | [-> Hab]].
  - apply orb_false_iff. split; [apply N.ltb_ge; lia|].
    apply andb_false_iff. left. apply N.eqb_neq. lia.
  - rewrite N.ltb_irrefl, N.eqb_refl. simpl. by apply IH.
Qed.

Lemma str_ltb_total a b :
  str_ltb a b = false -> str_ltb b a = false -> a = b.
Proof.
  revert b. induction a as [|x a IH]; intros [|y b]; simpl; try done.
  rewrite !orb_false_iff, !andb_false_iff, !N.ltb_ge, !N.eqb_neq.
  intros [Hxy Hab] [Hyx Hba].
  assert (x = y) as -> by lia. f_equal. apply IH.
  - by destruct Hab.
  - by destruct Hba.
Qed.

Lemma str_ltb_trans a b c :
  str_ltb a b = true -> str_ltb b c = true -> str_ltb a c = true.
Proof.
  revert b c. induction a as [|x a IH]; intros [|y b] [|z c]; simpl;
    try done.
  rewrite !orb_true_iff, !andb_true_iff, !N.ltb_lt, !N.eqb_eq.
  intros [Hxy | [-> Hab]] [Hyz | [-> Hbc]].
  - left. lia.
  - by left.
  - by left.
  - right. split; [done | by eapply IH].
Qed.

(** Ascending order of the keys: no row comes before a row with a smaller
    key. *)
Lemma insert_sorted_sorted {A} (key : A -> str) x (l : list A) :
  StronglySorted (fun a b => str_ltb (key b) (key a) = false) l ->
  StronglySorted (fun a b => str_ltb (key b) (key a) = false)
                 (insert_sorted key x l).
Proof.
  induction 1 as [|y l Hl IH Hy]; simpl.
  { by repeat constructor. }
  destruct (str_ltb (key y) (key x)) eqn:Hyx.
  - constructor; [done|]. rewrite insert_sorted_perm.
    constructor; [by apply str_ltb_asym | done].
  - constructor; [by constructor|]. constructor; [done|].
    eapply Forall_impl; [done|]. intros z Hz. simpl in Hz.
    destruct (str_ltb (key z) (key x)) eqn:Hzx; [|done].
    destruct (str_ltb (key y) (key z)) eqn:Hyz.
    + by rewrite (str_ltb_trans _ _ _ Hyz Hzx) in Hyx.
    + by rewrite (str_ltb_total _ _ Hz Hyz), Hyx in Hzx.
Qed.

Lemma sorted_sorted {A} (key : A -> str) (l : list A) :
  StronglySorted (fun a b => str_ltb (key b) (key a) = false) (sorted key l).
Proof.
  unfold sorted. induction l as [|x l IH]; simpl; [constructor|].
  by apply insert_sorted_sorted.
Qed.

Lemma elem_of_select verdict (results : list ProbeResult) site url :
  (site, url) ∈ select verdict results <-> (site, verdict, url) ∈ results.
Proof.
  unfold select. rewrite list_elem_of_omap. split.
  - intros ([[s v] u] & Hin & Hsel). simpl in Hsel.
    destruct (bool_decide_reflect (v = verdict)) as [->|]; [|done].
    by injection Hsel as -> ->.
  - intros Hin. exists (site, verdict, url). split; [done|]. simpl.
    by rewrite bool_decide_eq_true_2.
Qed.

Lemma select_length (results : list ProbeResult) :
  (length (select (Some true) results) + length (select None results)
   + length (select (Some false) results))%nat = length results.
Proof.
  unfold select. induction results as [|[[s v] u] l IH]; [done|].
  cbn [omap list_omap length]. destruct v as [[|]|]; simpl; lia.
Qed.

(** X26: the table of the hits lists the results whose verdict is exists,
    and no other: each such result gives one row, a result that is not found
    or uncertain gives none; the rows are in ascending order of the
    lower-cased site names, and the caption holds their number. *)
Theorem build_hits_table_rows username (results : list ProbeResult) :
  let table := build_hits_table username results in
  rows table ≡ₚ select (Some true) results
  /\ (forall site url,
        (site, url) ∈ rows table <-> (site, Some true, url) ∈ results)
  /\ StronglySorted
       (fun a b : str * str => str_ltb (str_lower b.1) (str_lower a.1) = false)
       (rows table)
  /\ caption table
     = lit "[bold]" ++ str_of_N (N.of_nat (length (rows table)))
       ++ lit "[/bold] sites matched".
Proof.
  simpl. split_and!.
  - apply sorted_perm.
  - intros site url. rewrite sorted_perm. apply elem_of_select.
  - apply sorted_sorted.
  - by rewrite sorted_perm.
Qed.

(** X27: the two tables and the results that are not found share out the
    results: the rows of the hits, the rows of the uncertain and the
    results not found add up to the number of results, and the uncertain
    table lists exactly the results whose verdict is uncertain. *)
Theorem tables_partition username (results : list ProbeResult) :
  (length (rows (build_hits_table username results))
   + length (rows (build_uncertain_table username results))
   + length (select (Some false) results))%nat
  = length results
  /\ forall site url,
       (site, url) ∈ rows (build_uncertain_table username results)
       <-> (site, None, url) ∈ results.
Proof.
  simpl. split.
  - rewrite !sorted_perm. apply select_length.
  - intros site url. rewrite sorted_perm. apply elem_of_select.
Qed.

End Tables_more.

Existing Instance Ascii_runtime.runtime.

Lemma ascii_decode_length (b : bytes) :
  (length (Ascii_runtime.decode b) <= length b)%nat.
Proof.
  unfold Ascii_runtime.decode. induction b as [|x b IH]; [done|].
  change (omap ?f (x :: b)) with
    (match f x with Some y => y :: omap f b | None => omap f b end).
  repeat case_match; simplify_eq; cbn [length]; lia.
Qed.

Lemma interpret_response_hard_not_found_witness :
  (status Examples.gone_to_login = 404 \/ status Examples.gone_to_login = 410)
  /\ interpret_response (lit "ex") Examples.strict_site Examples.alice_url
       Examples.gone_to_login
     = Ok (lit "ex", NotFound, Examples.alice_url).
Proof.
  split; [by left|].
  apply interpret_response_hard_not_found. by left.
Defined.

(** The bad redirect pattern matches the final url of a 404 response, and
    the verdict is not found, not uncertain. *)
Lemma bad_redirect_404_not_uncertain :
  looks_like_bad_redirect Examples.strict_site Examples.gone_to_login = true
  /\ interpret_response (lit "ex") Examples.strict_site Examples.alice_url
       Examples.gone_to_login
     <> Ok (lit "ex", Uncertain, Examples.alice_url).
Proof. split; [reflexivity | discriminate]. Qed.

Lemma bad_redirect_uncertain_witness :
  interpret_response (lit "ex") Examples.strict_site Examples.alice_url
    Examples.via_login
  = Ok (lit "ex", Uncertain, Examples.alice_url).
Proof.
  apply (bad_redirect_uncertain _ _ _ _ Examples.login_re
           (lit "https://ex.com/login?next=bob")).
  - reflexivity.
  - right. simpl. by left.
  - reflexivity.
  - discriminate.
  - discriminate.
Defined.

Lemma interpret_response_200_witness :
  interpret_response (lit "ex") Examples.must_site Examples.alice_url
    Examples.profile_page
  = Ok (lit "ex", Exists_, Examples.alice_url).
Proof.
  pose proof (interpret_response_200 (lit "ex") Examples.must_site
                Examples.alice_url Examples.profile_page
                eq_refl eq_refl) as [_ Hrules].
  destruct Hrules as [_ Htext]; [by right|].
  destruct (Htext (lit "the profile of alice") eq_refl) as (_ & Hmust & _).
  exact (Hmust Examples.profile_re eq_refl (or_introl eq_refl)).
Defined.

(** A body of fifteen chunks of 8192 bytes is read whole: 122880
    characters, more than the limit of 120000. *)
Lemma read_limited_text_exceeds_limit :
  match read_limited_text Examples.long_response 120000 with
  | Ok text => Z.of_nat (length text) = 122880 /\ 120000 < Z.of_nat (length text)
  | Raise _ => False
  end.
Proof. vm_compute. split; reflexivity. Qed.

Lemma read_limited_text_bound_witness :
  exists n,
    lit "the profile of alice"
    = concat (bytes_decode <$> take n (content Examples.profile_page))
    /\ Z.of_nat (length (lit "the profile of alice")) < 120000 + 8192
    /\ (Z.of_nat (length (lit "the profile of alice")) < 120000 ->
        n = length (content Examples.profile_page)).
Proof.
  apply (read_limited_text_bound Examples.profile_page 120000).
  - apply ascii_decode_length.
  - repeat constructor; by vm_compute.
  - lia.
  - reflexivity.
Defined.

Lemma check_username_retry_cap_witness :
  exists a0 a1 a2,
    check_username Examples.net_down (lit "ex") Examples.ex_com (lit "alice")
    = (Ok (lit "ex", Uncertain, Examples.alice_url),
       a0 ++ Sleep (1 # 4) :: a1 ++ Sleep (1 # 2) :: a2)
    /\ Forall (fun a => a = [Request (lit "HEAD") Examples.alice_url]
                       \/ a = [Request (lit "HEAD") Examples.alice_url;
                               Request (lit "GET") Examples.alice_url])
              [a0; a1; a2].
Proof.
  assert (forall attempt, (attempt < 3)%nat ->
            exists e, (attempt_body Examples.net_down (lit "ex") Examples.ex_com
                         Examples.alice_url (lit "HEAD") attempt).1 = Raise e)
    as Hfail.
  { intros attempt _. exists ClientError. reflexivity. }
  exact (check_username_retry_cap Examples.net_down (lit "ex") Examples.ex_com
           (lit "alice") Examples.alice_url eq_refl Hfail).
Defined.

(** On a network that is down, the probe of the retry cap: three HEAD
    requests, 0.25 s and 0.5 s apart. *)
Example check_username_net_down :
  check_username Examples.net_down (lit "ex") Examples.ex_com (lit "alice")
  = (Ok (lit "ex", Uncertain, Examples.alice_url),
     [Request (lit "HEAD") Examples.alice_url; Sleep (1 # 4);
      Request (lit "HEAD") Examples.alice_url; Sleep (1 # 2);
      Request (lit "HEAD") Examples.alice_url]).
Proof. reflexivity. Qed.

(** A profile probed with POST answers 403: no GET follows, the probe
    issues its one request and classifies the 403. *)
Lemma no_fallback_after_post :
  (exists resp,
     Examples.net_status 403 0%nat (lit "POST") Examples.alice_url = Ok resp
     /\ status resp = 403)
  /\ check_username (Examples.net_status 403) (lit "ex") Examples.post_site
       (lit "alice")
     = (Ok (lit "ex", Uncertain, Examples.alice_url),
        [Request (lit "POST") Examples.alice_url]).
Proof. split; [eexists; split; reflexivity | reflexivity]. Qed.

Lemma check_username_method_fallback_witness :
  check_username Examples.net_head_throttled (lit "ex") Examples.must_site
    (lit "alice")
  = (Ok (lit "ex", Exists_, Examples.alice_url),
     [Request (lit "HEAD") Examples.alice_url;
      Request (lit "GET") Examples.alice_url]).
Proof.
  pose proof (check_username_method_fallback Examples.net_head_throttled
                (lit "ex") Examples.must_site (lit "alice")
                Examples.alice_url eq_refl) as (_ & _ & Hfirst).
  exact (Hfirst (lit "ex", Exists_, Examples.alice_url) eq_refl).
Defined.

(** A HEAD answered by 200 is classified as it is, with no second
    request. *)
Example check_username_head_200 :
  check_username (Examples.net_status 200) (lit "ex") Examples.must_site
    (lit "alice")
  = (Ok (lit "ex", Uncertain, Examples.alice_url),
     [Request (lit "HEAD") Examples.alice_url]).
Proof. reflexivity. Qed.

(** The first end-to-end case of the specification: a HEAD answered by
    404. *)
Example check_username_alice_404 :
  check_username (Examples.net_status 404) (lit "ex") Examples.ex_com
    (lit "alice")
  = (Ok (lit "ex", NotFound, lit "https://ex.com/alice"),
     [Request (lit "HEAD") (lit "https://ex.com/alice")]).
Proof. reflexivity. Qed.

(** The meta description path keeps the markup of its group: a page whose
    meta description is a bold hi gives a bio with its tags. *)
Lemma bio_of_meta_keeps_markup :
  (fetch_x_bio (fun u => Ok (Examples.response 200 u [] Examples.markup_page))
     (lit "alice")).1
  = Some (bio_of_meta (lit "<b>hi</b>"))
  /\ bio_of_meta (lit "<b>hi</b>") = lit "<b>hi</b>"
  /\ ~ no_tag (bio_of_meta (lit "<b>hi</b>")).
Proof.
  split; [reflexivity|]. split; [reflexivity|].
  intros Hno. specialize (Hno [] (lit "b>hi</b>") eq_refl). discriminate.
Qed.

Example bio_of_description_strips :
  bio_of_description (lit "<span>Hello</span>   <b>world</b> ")
  = lit "Hello world".
Proof. reflexivity. Qed.

(** A cleaned text of 81 characters is cut to 80 and three dots. *)
Example bio_of_meta_clips :
  bio_of_meta (replicate 81 120%N) = replicate 80 120%N ++ lit "...".
Proof. reflexivity. Qed.

(** A run over two sites, the one of x.com reporting exists: one
    enrichment fetch, after the two probes, and one bio. *)
Example run_scan_alice :
  match run_result
          (run_scan (Examples.demo_env (JsonObject Examples.catalog))
             Examples.plain_args (lit "Alice ")) with
  | Some (Ok (all_results, bios)) =>
      map_to_list all_results
      = [(lit "alice",
          [(lit "ex", NotFound, lit "https://ex.com/alice");
           (lit "x", Exists_, lit "https://x.com/alice")])]
      /\ map_to_list bios = [(lit "alice", lit "Alice in Wonderland")]
  | _ => False
  end
  /\ run_events
       (run_scan (Examples.demo_env (JsonObject Examples.catalog))
          Examples.plain_args (lit "Alice "))
     = [Probe (lit "alice") (lit "ex")
          [Request (lit "HEAD") (lit "https://ex.com/alice")];
        Probe (lit "alice") (lit "x")
          [Request (lit "GET") (lit "https://x.com/alice")];
        Enrich (lit "alice")
          [Request (lit "GET") (lit "https://x.com/alice")]].
Proof. vm_compute. repeat split. Qed.

(** The same run with a concurrency ceiling of 0 waits for ever, and with a
    ceiling of -1 it is refused before any probe. *)
Example run_scan_alice_blocked :
  run_scan (Examples.demo_env (JsonObject Examples.catalog))
    Examples.blocked_args (lit "Alice ") = Blocks
  /\ run_scan (Examples.demo_env (JsonObject Examples.catalog))
       Examples.refused_args (lit "Alice ") = Returns (Raise ValueError) [].
Proof. split; vm_compute; reflexivity. Qed.




(** The handle Alice followed by a space is scanned as alice. *)
Example normalize_alice : str_lower (strip (lit "Alice ")) = lit "alice".
Proof. reflexivity. Qed.

(** ** Instances of the further properties *)

Lemma interpret_response_exists_inv_witness :
  status Examples.profile_page = 200
  /\ looks_like_bad_redirect Examples.must_site Examples.profile_page = false.
Proof.
  assert (interpret_response (lit "ex") Examples.must_site Examples.alice_url
            Examples.profile_page
          = Ok (lit "ex", Exists_, Examples.alice_url)) as Hex by reflexivity.
  destruct (interpret_response_exists_inv _ _ _ _ _ _ Hex) as (H1 & H2 & _).
  exact (conj H1 H2).
Defined.

Lemma interpret_response_other_status_witness :
  interpret_response (lit "ex") Examples.strict_site Examples.alice_url
    (Examples.response 403 Examples.alice_url [] [])
  = Ok (lit "ex", Uncertain, Examples.alice_url).
Proof.
  apply interpret_response_other_status; discriminate.
Defined.

Lemma interpret_response_not_found_inv_witness :
  status Examples.gone_to_login = 404 \/ status Examples.gone_to_login = 410
  \/ (status Examples.gone_to_login = 200
      /\ looks_like_bad_redirect Examples.strict_site Examples.gone_to_login
         = false
      /\ exists re text,
           _not_found_re Examples.strict_site = Some re
           /\ read_limited_text Examples.gone_to_login 120000 = Ok text
           /\ search re text = true).
Proof.
  assert (interpret_response (lit "ex") Examples.strict_site
            Examples.alice_url Examples.gone_to_login
          = Ok (lit "ex", NotFound, Examples.alice_url)) as Hnf by reflexivity.
  exact (interpret_response_not_found_inv _ _ _ _ _ _ Hnf).
Defined.

Lemma read_limited_text_under_limit_witness :
  read_limited_text Examples.profile_page 120000
  = Ok (lit "the profile of alice").
Proof.
  assert (Z.of_nat (length (decoded_body Examples.profile_page)) < 120000)
    as Hlt by (by vm_compute).
  exact (read_limited_text_under_limit Examples.profile_page 120000 Hlt).
Defined.

(** The stream of this body breaks after its last chunk, and the read does
    not see it. *)
Lemma read_limited_text_stops_at_limit_witness :
  exists text,
    read_limited_text More_examples.long_broken 120000 = Ok text
    /\ 120000 <= Z.of_nat (length text).
Proof.
  apply read_limited_text_stops_at_limit; [lia | by vm_compute].
Defined.

Lemma check_username_bounded_witness :
  (1 <= length (event_requests
                  (check_username Examples.net_down (lit "ex") Examples.ex_com
                     (lit "alice")).2) <= 6)%nat.
Proof.
  assert (build_url Examples.ex_com (lit "alice") = Ok Examples.alice_url)
    as Hurl by reflexivity.
  destruct (check_username_bounded Examples.net_down (lit "ex")
              Examples.ex_com (lit "alice") Examples.alice_url Hurl)
    as (_ & Hcount & _).
  exact Hcount.
Defined.

Lemma check_username_retry_recovers_witness :
  (check_username More_examples.net_flaky (lit "ex") Examples.ex_com
     (lit "alice")).1
  = Ok (lit "ex", NotFound, Examples.alice_url)
  /\ event_sleeps
       (check_username More_examples.net_flaky (lit "ex") Examples.ex_com
          (lit "alice")).2
     = [1 # 4].
Proof.
  assert (build_url Examples.ex_com (lit "alice") = Ok Examples.alice_url)
    as Hurl by reflexivity.
  assert (forall j, (j < 1)%nat ->
            exists e,
              (attempt_body More_examples.net_flaky (lit "ex") Examples.ex_com
                 Examples.alice_url (lit "HEAD") j).1 = Raise e) as Hfail.
  { intros j Hj. assert (j = 0%nat) as -> by lia. by eexists. }
  assert ((attempt_body More_examples.net_flaky (lit "ex") Examples.ex_com
             Examples.alice_url (lit "HEAD") 1).1
          = Ok (lit "ex", NotFound, Examples.alice_url)) as Hok
    by reflexivity.
  assert (1 < 3)%nat as Hk by lia.
  exact (check_username_retry_recovers More_examples.net_flaky (lit "ex")
           Examples.ex_com (lit "alice") Examples.alice_url 1
           (lit "ex", NotFound, Examples.alice_url) Hurl Hk Hfail Hok).
Defined.

Lemma check_username_exists_needs_200_witness :
  exists url attempt m resp,
    build_url Examples.must_site (lit "alice") = Ok url
    /\ (attempt < 3)%nat
    /\ Examples.net_head_throttled attempt m url = Ok resp
    /\ status resp = 200
    /\ Request m url
       ∈ [Request (lit "HEAD") Examples.alice_url;
          Request (lit "GET") Examples.alice_url].
Proof.
  assert (check_username Examples.net_head_throttled (lit "ex")
            Examples.must_site (lit "alice")
          = (Ok (lit "ex", Exists_, Examples.alice_url),
             [Request (lit "HEAD") Examples.alice_url;
              Request (lit "GET") Examples.alice_url])) as Hex
    by reflexivity.
  exact (check_username_exists_needs_200 _ _ _ _ _ _ _ Hex).
Defined.

Lemma bio_has_no_outer_space_witness :
  (forall c u, bio_of_description (lit "  <b>hi</b> there ") = c :: u ->
     isspace c = false)
  /\ (forall u c, bio_of_description (lit "  <b>hi</b> there ") = u ++ [c] ->
        isspace c = false).
Proof.
  apply (bio_has_no_outer_space (lit "  <b>hi</b> there ")). by left.
Defined.

Lemma generate_username_variations_length_witness :
  Z.of_nat (length (generate_username_variations 7 (fun l => l)
                      (lit "Alice ") 12)) <= 12.
Proof. apply generate_username_variations_length. lia. Defined.

Lemma generate_username_variations_shapes_witness :
  NoDup (generate_username_variations 7 (fun l => l) (lit "Alice ") 12).
Proof.
  assert (forall l : list str, (fun l => l) l ≡ₚ l) as Hshuf by done.
  exact (proj1 (generate_username_variations_shapes 7 (fun l => l)
                  (lit "Alice ") 12 Hshuf)).
Defined.

(** The one variation returned for Alice and [max_variants = 1] with these
    random choices is msalice, not alice. *)
Lemma generate_username_variations_small_max_witness :
  generate_username_variations 7 (fun l => l) (lit "Alice ") 1
  = [lit "msalice"]
  /\ variant_shape [] (str_lower (strip (lit "Alice "))) (lit "msalice").
Proof.
  assert (generate_username_variations 7 (fun l => l) (lit "Alice ") 1
          = [lit "msalice"]) as Hone by (vm_compute; reflexivity).
  split; [done|].
  assert (forall l : list str, (fun l => l) l ≡ₚ l) as Hshuf by done.
  assert (1 <= 1) as Hmax by lia.
  apply (generate_username_variations_small_max 7 (fun l => l)
           (lit "Alice ") 1 Hshuf Hmax).
  rewrite Hone. by left.
Defined.

Lemma load_sites_loaded (sites : gmap str SiteData) :
  (exists m, load_sites (JsonObject sites) = Ok m) ->
  load_sites (JsonObject sites) = Ok (More_examples.loaded sites).
Proof. intros [m Hm]. unfold More_examples.loaded. by rewrite Hm. Qed.

Lemma load_sites_catalog :
  load_sites (JsonObject Examples.catalog)
  = Ok (More_examples.loaded Examples.catalog).
Proof. apply load_sites_loaded. eexists. vm_compute. reflexivity. Qed.

Lemma load_sites_catalog_no_url :
  load_sites (JsonObject Examples.catalog_no_url)
  = Ok (More_examples.loaded Examples.catalog_no_url).
Proof. apply load_sites_loaded. eexists. vm_compute. reflexivity. Qed.

Lemma load_sites_ok_witness :
  match Examples.catalog !! lit "x" with
  | None => More_examples.loaded Examples.catalog !! lit "x" = None
  | Some cfg =>
      exists sd,
        More_examples.loaded Examples.catalog !! lit "x" = Some sd
        /\ site_url sd = site_url cfg
        /\ site_method sd = site_method cfg
        /\ site_skip sd = site_skip cfg
        /\ pattern_texts sd = pattern_texts cfg
        /\ compiled_from (not_found_regex cfg) (_not_found_re sd)
        /\ compiled_from (bad_redirect_regex cfg) (_bad_redirect_re sd)
        /\ compiled_from (must_contain_regex cfg) (_must_re sd)
  end.
Proof.
  exact (load_sites_ok Examples.catalog _ load_sites_catalog (lit "x")).
Defined.

Lemma demo_sweep_collected :
  (sweep_collected (Examples.demo_env (JsonObject Examples.catalog))
     More_examples.demo_sites (lit "alice")).1
  = Ok ([(lit "ex", NotFound, lit "https://ex.com/alice");
         (lit "x", Exists_, lit "https://x.com/alice")], true).
Proof. vm_compute. reflexivity. Qed.

Lemma sweep_enrichment_trigger_witness :
  (sweep (Examples.demo_env (JsonObject Examples.catalog))
     More_examples.demo_sites (lit "alice") ∅).2
  = (sweep_collected (Examples.demo_env (JsonObject Examples.catalog))
       More_examples.demo_sites (lit "alice")).2
    ++ [Enrich (lit "alice") [Request (lit "GET") (x_url (lit "alice"))]].
Proof.
  destruct (sweep_enrichment_trigger _ _ _ ∅ _ _ demo_sweep_collected)
    as (_ & Htrue & _).
  exact (Htrue eq_refl).
Defined.

Lemma run_scan_events_witness :
  exists site_data,
    More_examples.loaded Examples.catalog !! lit "x" = Some site_data
    /\ (site_skip site_data = false
        \/ include_skipped Examples.plain_args = true).
Proof.
  assert (forall u l,
            as_completed (Examples.demo_env (JsonObject Examples.catalog)) u l
            ≡ₚ l) as Hperm by done.
  assert (Probe (lit "alice") (lit "x")
            [Request (lit "GET") (lit "https://x.com/alice")]
          ∈ run_events More_examples.demo_run) as Hin.
  { vm_compute. right. left. }
  exact (proj2 (run_scan_events
                  (Examples.demo_env (JsonObject Examples.catalog))
                  Examples.plain_args (lit "Alice ") _ Hperm
                  load_sites_catalog) _ _ _ Hin).
Defined.

Lemma run_scan_aborts_on_bad_entry_witness :
  exists e,
    run_result
      (run_scan (Examples.demo_env (JsonObject Examples.catalog_no_url))
         Examples.plain_args (lit "alice")) = Some (Raise e).
Proof.
  assert (forall u l,
            as_completed
              (Examples.demo_env (JsonObject Examples.catalog_no_url)) u l
            ≡ₚ l) as Hperm by done.
  assert (str_lower (strip (lit "alice")) <> []) as Hbase by discriminate.
  assert (usernames_to_check
            (Examples.demo_env (JsonObject Examples.catalog_no_url))
            Examples.plain_args (str_lower (strip (lit "alice")))
          = [lit "alice"]) as Hhandles by reflexivity.
  assert (included_sites Examples.plain_args
            (More_examples.loaded Examples.catalog_no_url) !! lit "zz"
          = Some (Examples.entry None None false None None None)) as Hzz
    by (vm_compute; reflexivity).
  assert (build_url (Examples.entry None None false None None None)
            (lit "alice") = Raise KeyError) as Hurl by reflexivity.
  exact (run_scan_aborts_on_bad_entry _ _ _ _ _ _ _ _ _ Hperm
           load_sites_catalog_no_url Hbase Hhandles Hzz Hurl).
Defined.

Lemma demo_run_ok :
  run_result More_examples.demo_run
  = Some (Ok (More_examples.demo_results, More_examples.demo_bios)).
Proof.
  unfold More_examples.demo_results, More_examples.demo_bios.
  assert (exists all_results bios,
            run_result More_examples.demo_run = Some (Ok (all_results, bios)))
    as (all_results & bios & ->).
  { do 2 eexists. vm_compute. reflexivity. }
  done.
Qed.

Lemma run_scan_bios_witness :
  lit "Alice in Wonderland" <> []
  /\ (fetch_x_bio (x_http (Examples.demo_env (JsonObject Examples.catalog)))
        (lit "alice")).1 = Some (lit "Alice in Wonderland")
  /\ exists results,
       More_examples.demo_results !! lit "alice" = Some results
       /\ existsb (high_signal
                     (included_sites Examples.plain_args
                        (More_examples.loaded Examples.catalog))) results
          = true.
Proof.
  assert (More_examples.demo_bios !! lit "alice"
          = Some (lit "Alice in Wonderland")) as Hbio
    by (vm_compute; reflexivity).
  exact (run_scan_bios (Examples.demo_env (JsonObject Examples.catalog))
           Examples.plain_args (lit "Alice ") _ _ _ _ _
           load_sites_catalog demo_run_ok Hbio).
Defined.

(** The table of the hits of four results: the two that exist, Alpha
    before Zeta. *)
Example build_hits_table_example :
  rows (build_hits_table (lit "alice") More_examples.some_results)
  = [(lit "Alpha", lit "https://alpha.example/alice");
     (lit "Zeta", lit "https://zeta.example/alice")]
  /\ caption (build_hits_table (lit "alice") More_examples.some_results)
     = lit "[bold]2[/bold] sites matched".
Proof. split; reflexivity. Qed.

(** A host that ends in x.com counts as the site of x.com. *)
Example is_x_site_netflix :
  is_x_site (lit "Netflix")
    (Examples.site (Some (lit "https://www.netflix.com/{}")) None
       None None None)
  = true.
Proof. reflexivity. Qed.
